(** * Brier scores of [rampwf/score_types/brier_score.py]

    A shallow embedding of the four scorers [BrierScore], [BrierSkillScore],
    [BrierScoreReliability] and [BrierScoreResolution], and of the fragment of
    NumPy they call.

    Numbers.  A NumPy float is modelled as an exact rational extended with
    the three special values of IEEE arithmetic that the code can produce
    (not-a-number and the two infinities).  Additions, products and quotients
    of finite values are exact: rounding, overflow, underflow and the sign of
    zero are not modelled (a zero divisor is treated as [+0.0], which is what
    the code divides by: its zero divisors are sums of squares, counts, or
    [climo * (1 - climo)]).  NumPy's floating-point error state is the default
    one: a division by zero inside NumPy warns and yields [nan] or [inf], while
    a division by zero between Python scalars raises [ZeroDivisionError].
    Where underflow decides a property, [BrierScore64] gives the formula of
    [BrierScore] on IEEE double-precision numbers. *)

From Stdlib Require Import String List ZArith QArith Qround Lqa Lia Bool.
From Stdlib Require Import Floats.
Import ListNotations.
Open Scope Q_scope.

(** ** Python exceptions, and results of calls that may raise *)

Inductive exn : Type :=
| ValueError_dimensions   (* raised by check_y_pred_dimensions *)
| ValueError_broadcast    (* operands could not be broadcast together *)
| ValueError_bins         (* np.histogram: bins must increase monotonically *)
| IndexError
| ZeroDivisionError.

Inductive result (A : Type) : Type :=
| Ok (a : A)
| Raise (e : exn).
Arguments Ok {A} a.
Arguments Raise {A} e.

Definition bind {A B : Type} (r : result A) (k : A -> result B) : result B :=
  match r with
  | Ok a => k a
  | Raise e => Raise e
  end.

Notation "x <- c ;; k" := (bind c (fun x => k))
  (at level 61, c at next level, right associativity).

(** ** Extended numbers *)

Inductive num : Type :=
| Fin (q : Q)
| PInf
| NInf
| NaN.

Definition nneg (x : num) : num :=
  match x with
  | Fin a => Fin (- a)
  | PInf => NInf
  | NInf => PInf
  | NaN => NaN
  end.

Definition nadd (x y : num) : num :=
  match x, y with
  | NaN, _ | _, NaN => NaN
  | Fin a, Fin b => Fin (a + b)
  | PInf, NInf | NInf, PInf => NaN
  | PInf, _ | _, PInf => PInf
  | NInf, _ | _, NInf => NInf
  end.

Definition nsub (x y : num) : num := nadd x (nneg y).

(** The product of an infinity and a finite number takes the sign of the
    finite number, and is not-a-number when that number is zero. *)
Definition inf_times (pos : bool) (a : Q) : num :=
  match a ?= 0 with
  | Eq => NaN
  | Gt => if pos then PInf else NInf
  | Lt => if pos then NInf else PInf
  end.

Definition nmul (x y : num) : num :=
  match x, y with
  | NaN, _ | _, NaN => NaN
  | Fin a, Fin b => Fin (a * b)
  | Fin a, PInf | PInf, Fin a => inf_times true a
  | Fin a, NInf | NInf, Fin a => inf_times false a
  | PInf, PInf | NInf, NInf => PInf
  | PInf, NInf | NInf, PInf => NInf
  end.

(** NumPy's true division: [0/0] is [nan], [a/0] is an infinity of the sign
    of [a]; nothing is raised. *)
Definition ndiv (x y : num) : num :=
  match x, y with
  | NaN, _ | _, NaN => NaN
  | Fin a, Fin b =>
      match b ?= 0 with
      | Eq => match a ?= 0 with
              | Eq => NaN
              | Gt => PInf
              | Lt => NInf
              end
      | _ => Fin (a / b)
      end
  | Fin _, PInf | Fin _, NInf => Fin 0
  | PInf, Fin b => match b ?= 0 with Lt => NInf | _ => PInf end
  | NInf, Fin b => match b ?= 0 with Lt => PInf | _ => NInf end
  | _, _ => NaN
  end.

(** [x == s] on numbers: not-a-number is equal to nothing. *)
Definition neqb (x y : num) : bool :=
  match x, y with
  | Fin a, Fin b => Qeq_bool a b
  | PInf, PInf | NInf, NInf => true
  | _, _ => false
  end.

Definition of_int (z : Z) : num := Fin (inject_Z z).
Definition of_nat (n : nat) : num := of_int (Z.of_nat n).

(** Python's [1 / float(n)] on Python scalars: a zero divisor raises. *)
Definition py_truediv (a b : Q) : result num :=
  match b ?= 0 with
  | Eq => Raise ZeroDivisionError
  | _ => Ok (Fin (a / b))
  end.

(** ** The fragment of NumPy used by the scorers *)

Module np.

(** One-dimensional arrays of floats. *)
Definition ndarray : Type := list num.

(** Two-dimensional arrays, of shape [(length rows, ncols)]. *)
Record matrix : Type := { ncols : nat; rows : list (list num) }.

Fixpoint zip_with {A B C : Type} (f : A -> B -> C)
         (a : list A) (b : list B) : list C :=
  match a, b with
  | x :: a', y :: b' => f x y :: zip_with f a' b'
  | _, _ => []
  end.

(** Element-wise operation on two one-dimensional arrays, with NumPy's
    broadcasting: equal lengths pair up, an array of length one is
    stretched, anything else raises. *)
Definition broadcast {A B C : Type} (f : A -> B -> C)
           (a : list A) (b : list B) : result (list C) :=
  if (length a =? length b)%nat then Ok (zip_with f a b)
  else match a, b with
       | [x], _ => Ok (map (f x) b)
       | _, [y] => Ok (map (fun x => f x y) a)
       | _, _ => Raise ValueError_broadcast
       end.

Definition subtract : ndarray -> ndarray -> result ndarray := broadcast nsub.
Definition multiply : ndarray -> ndarray -> result ndarray := broadcast nmul.
Definition true_divide : ndarray -> ndarray -> result ndarray := broadcast ndiv.

(** [a ** 2]. *)
Definition square (a : ndarray) : ndarray := map (fun x => nmul x x) a.

(** [s - a] for a scalar [s]. *)
Definition rsubtract (s : num) (a : ndarray) : ndarray := map (nsub s) a.

(** [a - s] for a scalar [s]. *)
Definition subtract_scalar (a : ndarray) (s : num) : ndarray :=
  map (fun x => nsub x s) a.

(** [a == s] for a scalar [s]. *)
Definition equal (a : ndarray) (s : num) : list bool :=
  map (fun x => neqb x s) a.

Definition astype_float (a : list Z) : ndarray := map of_int a.

Definition sum (a : ndarray) : num := fold_right nadd (Fin 0) a.

(** [np.mean]: the sum over the size; [nan] on an empty array. *)
Definition mean (a : ndarray) : num := ndiv (sum a) (of_nat (length a)).

(** [np.nansum]: not-a-number entries count as zero. *)
Definition nan_to_zero (x : num) : num :=
  match x with
  | NaN => Fin 0
  | _ => x
  end.
Definition nansum (a : ndarray) : num := sum (map nan_to_zero a).

(** [a[mask]] for a boolean mask.  An empty mask selects nothing, from an
    array of any length (NumPy checks the length of a boolean index only
    when it is not empty); any other mask must be as long as the array. *)
Definition mask_index {A : Type} (a : list A) (mask : list bool)
  : result (list A) :=
  match mask with
  | [] => Ok []
  | _ :: _ =>
      if (length a =? length mask)%nat
      then Ok (map fst (filter snd (combine a mask)))
      else Raise IndexError
  end.

(** [np.arange(start, stop, step)] for a positive step. *)
Definition arange (start stop step : Q) : list Q :=
  map (fun i => start + inject_Z (Z.of_nat i) * step)
      (seq 0 (Z.to_nat (Qceiling ((stop - start) / step)))).

(** [np.histogram(a, bins=edges)[0]] for an array of edges: the edges must
    not decrease; bin [i] is [edges[i] <= x < edges[i+1]], except the last
    one, which also holds its right edge.  Values outside every bin, and
    the special values, are not counted. *)
Fixpoint monotone (edges : list Q) : bool :=
  match edges with
  | lo :: (hi :: _) as rest => Qle_bool lo hi && monotone rest
  | _ => true
  end.

Definition in_bin (last : bool) (lo hi : Q) (x : num) : bool :=
  match x with
  | Fin v =>
      Qle_bool lo v && (if last then Qle_bool v hi else negb (Qle_bool hi v))
  | _ => false
  end.

Definition is_nil {A : Type} (l : list A) : bool :=
  match l with
  | [] => true
  | _ => false
  end.

Fixpoint counts (a : ndarray) (edges : list Q) : list Z :=
  match edges with
  | lo :: (hi :: after) as rest =>
      Z.of_nat (length (filter (in_bin (is_nil after) lo hi) a))
      :: counts a rest
  | _ => []
  end.

Definition histogram (a : ndarray) (edges : list Q) : result (list Z) :=
  if monotone edges then Ok (counts a edges) else Raise ValueError_bins.

(** Indexing along the first axis by a [valid_indexes] value: a slice with
    unit step, or a sequence of integer positions (negative ones count from
    the end; one out of range raises). *)
Inductive index : Type :=
| Slice (start stop : option Z)
| Take (positions : list Z).

Definition slice_bound (n : Z) (bound : option Z) (default : Z) : Z :=
  match bound with
  | None => default
  | Some i => Z.max 0 (Z.min n (if (i <? 0)%Z then (i + n)%Z else i))
  end.

Definition item {A : Type} (a : list A) (i : Z) : result A :=
  let n := Z.of_nat (length a) in
  let j := if (i <? 0)%Z then (i + n)%Z else i in
  if (j <? 0)%Z then Raise IndexError
  else match nth_error a (Z.to_nat j) with
       | Some x => Ok x
       | None => Raise IndexError
       end.

Fixpoint take {A : Type} (a : list A) (positions : list Z)
  : result (list A) :=
  match positions with
  | [] => Ok []
  | i :: rest =>
      x <- item a i ;;
      xs <- take a rest ;;
      Ok (x :: xs)
  end.

Definition getitem {A : Type} (a : list A) (ix : index) : result (list A) :=
  match ix with
  | Slice start stop =>
      let n := Z.of_nat (length a) in
      let lo := slice_bound n start 0 in
      let hi := slice_bound n stop n in
      Ok (firstn (Z.to_nat (hi - lo)) (skipn (Z.to_nat lo) a))
  | Take positions => take a positions
  end.

Definition getitem_rows (m : matrix) (ix : index) : result matrix :=
  r <- getitem (rows m) ix ;;
  Ok {| ncols := ncols m; rows := r |}.

(** [m[:, j]]. *)
Definition column (m : matrix) (j : nat) : result ndarray :=
  if (j <? ncols m)%nat
  then Ok (map (fun r => nth j r NaN) (rows m))
  else Raise IndexError.

End np.

(** ** The prediction objects handed to [score_function] *)

Record Predictions : Type := {
  y_pred : np.matrix;
  y_pred_label_index : np.ndarray
}.

(** ** The base class *)

Module BaseScoreType.

(** Modelled from the spec: [BaseScoreType.check_y_pred_dimensions], of
    [rampwf/score_types/base.py], which is not among the sources.  The spec
    says that the two extracted columns are validated to have equal length
    and that a mismatch signals a dimension-mismatch failure. *)
Definition check_y_pred_dimensions (y_true y_pred : np.ndarray)
  : result unit :=
  if (length y_true =? length y_pred)%nat then Ok tt
  else Raise ValueError_dimensions.

End BaseScoreType.

(** ** BrierScore *)

Module BrierScore.

Definition is_lower_the_better : bool := true.
Definition minimum : Q := 0.
Definition maximum : Q := 1.

Definition __call__ (y_true_proba y_proba : np.ndarray) : result num :=
  d <- np.subtract y_proba y_true_proba ;;
  Ok (np.mean (np.square d)).

Definition score_function (ground_truths predictions : Predictions)
           (valid_indexes : option np.index) : result num :=
  let valid_indexes :=
    match valid_indexes with
    | None => np.Slice None None
    | Some ix => ix
    end in
  sel <- np.getitem_rows (y_pred predictions) valid_indexes ;;
  y_proba <- np.column sel 1 ;;
  y_true_proba <-
    np.getitem (y_pred_label_index ground_truths) valid_indexes ;;
  _ <- BaseScoreType.check_y_pred_dimensions y_true_proba y_proba ;;
  __call__ y_true_proba y_proba.

End BrierScore.

(** The same formula on IEEE double-precision numbers, for arrays of one
    length: what line 31 computes where the exact model above does not
    apply (underflow).  [np.mean] adds the entries up and divides by their
    number. *)
Module BrierScore64.

Definition sum (a : list float) : float := fold_left PrimFloat.add a 0%float.

Definition size (a : list float) : float :=
  PrimFloat.of_uint63 (Uint63.of_Z (Z.of_nat (length a))).

Definition mean (a : list float) : float := PrimFloat.div (sum a) (size a).

Definition square (a : list float) : list float :=
  map (fun x => PrimFloat.mul x x) a.

Definition __call__ (y_true_proba y_proba : list float) : float :=
  mean (square (np.zip_with PrimFloat.sub y_proba y_true_proba)).

End BrierScore64.

(** The double 2^-600. *)
Definition tiny : float := 0x1p-600%float.

(** ** BrierSkillScore *)

Module BrierSkillScore.

Definition is_lower_the_better : bool := false.
Definition minimum : Q := -1.
Definition maximum : Q := 1.

(** The reference variance [bs_c]. *)
Definition bs_c (y_true_proba : np.ndarray) : num :=
  np.mean (np.square (np.rsubtract (np.mean y_true_proba) y_true_proba)).

Definition __call__ (y_true_proba y_proba : np.ndarray) : result num :=
  d <- np.subtract y_proba y_true_proba ;;
  let bs := np.mean (np.square d) in
  Ok (nsub (Fin 1) (ndiv bs (bs_c y_true_proba))).

Definition score_function (ground_truths predictions : Predictions)
           (valid_indexes : option np.index) : result num :=
  let valid_indexes :=
    match valid_indexes with
    | None => np.Slice None None
    | Some ix => ix
    end in
  sel <- np.getitem_rows (y_pred predictions) valid_indexes ;;
  y_proba <- np.column sel 1 ;;
  y_true_proba <-
    np.getitem (y_pred_label_index ground_truths) valid_indexes ;;
  _ <- BaseScoreType.check_y_pred_dimensions y_true_proba y_proba ;;
  __call__ y_true_proba y_proba.

End BrierSkillScore.

(** ** The two binned scorers *)

(** The attributes set by the constructors of [BrierScoreReliability] and
    [BrierScoreResolution]. *)
Record Binned : Type := {
  name : string;
  precision : Z;
  bins : list Q;
  bin_centers : list Q
}.

(** [np.arange(0, 1.2, 0.1)], the default of the [bins] argument, in exact
    arithmetic: the edges [i/10].  (The doubles the code holds are, for each
    [i], the least double not below [i/10].) *)
Definition default_bins : list Q := np.arange 0 (12 # 10) (1 # 10).

(** The body shared, character for character, by the two constructors:
    [(bins[1:] - bins[:-1]) * 0.05], then the entries above 1 set to 1 and
    the entries below 0 set to 0. *)
Definition make_bin_centers (bins : list Q) : list Q :=
  let bin_centers :=
    map (fun w => w * (5 # 100)) (np.zip_with Qminus (tl bins) (removelast bins)) in
  let bin_centers :=
    map (fun c => if Qlt_le_dec 1 c then 1 else c) bin_centers in
  map (fun c => if Qlt_le_dec c 0 then 0 else c) bin_centers.

Module BrierScoreReliability.

Definition is_lower_the_better : bool := true.
Definition minimum : Q := 0.
Definition maximum : Q := 1.

Definition __init__ (name : string) (precision : Z) (bins : list Q)
  : Binned :=
  {| name := name; precision := precision; bins := bins;
     bin_centers := make_bin_centers bins |}.

Definition default : Binned := __init__ "brier_score"%string 3%Z default_bins.

Definition __call__ (self : Binned) (y_true_proba y_proba : np.ndarray)
  : result num :=
  positives <- np.mask_index y_proba (np.equal y_true_proba (Fin 1)) ;;
  pos_obs_freq <- np.histogram positives (bins self) ;;
  fore_freq <- np.histogram y_proba (bins self) ;;
  pos_obs_rel_freq <-
    np.true_divide (np.astype_float pos_obs_freq)
                   (np.astype_float fore_freq) ;;
  inv_size <- py_truediv 1 (inject_Z (Z.of_nat (length y_proba))) ;;
  d <- np.subtract (map Fin (bin_centers self)) pos_obs_rel_freq ;;
  terms <- np.multiply (np.astype_float fore_freq) (np.square d) ;;
  Ok (nmul inv_size (np.nansum terms)).

Definition score_function (self : Binned)
           (ground_truths predictions : Predictions)
           (valid_indexes : option np.index) : result num :=
  let valid_indexes :=
    match valid_indexes with
    | None => np.Slice None None
    | Some ix => ix
    end in
  sel <- np.getitem_rows (y_pred predictions) valid_indexes ;;
  y_proba <- np.column sel 1 ;;
  y_true_proba <-
    np.getitem (y_pred_label_index ground_truths) valid_indexes ;;
  _ <- BaseScoreType.check_y_pred_dimensions y_true_proba y_proba ;;
  __call__ self y_true_proba y_proba.

End BrierScoreReliability.

Module BrierScoreResolution.

Definition is_lower_the_better : bool := false.
Definition minimum : Q := 0.
Definition maximum : Q := 1.

Definition __init__ (name : string) (precision : Z) (bins : list Q)
  : Binned :=
  {| name := name; precision := precision; bins := bins;
     bin_centers := make_bin_centers bins |}.

Definition default : Binned := __init__ "brier_score"%string 3%Z default_bins.

(** [np.seterr(divide="ignore")] only silences a warning: it does not
    change any value computed here. *)
Definition __call__ (self : Binned) (y_true_proba y_proba : np.ndarray)
  : result num :=
  positives <- np.mask_index y_proba (np.equal y_true_proba (Fin 1)) ;;
  pos_obs_freq <- np.histogram positives (bins self) ;;
  fore_freq <- np.histogram y_proba (bins self) ;;
  let climo := np.mean y_true_proba in
  let unc := nmul climo (nsub (Fin 1) climo) in
  pos_obs_rel_freq <-
    np.true_divide (np.astype_float pos_obs_freq)
                   (np.astype_float fore_freq) ;;
  inv_size <- py_truediv 1 (inject_Z (Z.of_nat (length y_proba))) ;;
  terms <-
    np.multiply (np.astype_float fore_freq)
                (np.square (np.subtract_scalar pos_obs_rel_freq climo)) ;;
  let score := nmul inv_size (np.nansum terms) in
  Ok (ndiv score unc).

Definition score_function (self : Binned)
           (ground_truths predictions : Predictions)
           (valid_indexes : option np.index) : result num :=
  let valid_indexes :=
    match valid_indexes with
    | None => np.Slice None None
    | Some ix => ix
    end in
  sel <- np.getitem_rows (y_pred predictions) valid_indexes ;;
  y_proba <- np.column sel 1 ;;
  y_true_proba <-
    np.getitem (y_pred_label_index ground_truths) valid_indexes ;;
  _ <- BaseScoreType.check_y_pred_dimensions y_true_proba y_proba ;;
  __call__ self y_true_proba y_proba.

End BrierScoreResolution.


(** * Properties *)

(** ** Rationals, sums and means *)

Definition qsum (l : list Q) : Q := fold_right Qplus 0 l.

(** The size of an array, as the rational the means divide by. *)
Definition qlen {A : Type} (l : list A) : Q := inject_Z (Z.of_nat (length l)).

Lemma qlen_cons {A : Type} (x : A) (l : list A) : qlen (x :: l) == qlen l + 1.
Proof.
  unfold qlen. cbn [length]. rewrite Nat2Z.inj_succ, <- Z.add_1_r.
  rewrite inject_Z_plus. reflexivity.
Qed.

Lemma qlen_nonneg {A : Type} (l : list A) : 0 <= qlen l.
Proof.
  unfold qlen. change 0 with (inject_Z 0). rewrite <- Zle_Qle. lia.
Qed.

Lemma qlen_pos {A : Type} (l : list A) : l <> [] -> 0 < qlen l.
Proof.
  intros Hl. destruct l as [|x l]; [congruence|].
  rewrite qlen_cons. pose proof (qlen_nonneg l). lra.
Qed.

Lemma qlen_compare_pos {A : Type} (l : list A) :
  l <> [] -> (qlen l ?= 0) = Gt.
Proof. intros Hl. apply Qgt_alt. now apply qlen_pos. Qed.

Lemma qlen_map {A B : Type} (f : A -> B) (l : list A) : qlen (map f l) = qlen l.
Proof. unfold qlen. now rewrite length_map. Qed.

Lemma sum_map_Fin (l : list Q) : np.sum (map Fin l) = Fin (qsum l).
Proof.
  induction l as [|x l IH]; [reflexivity|].
  unfold np.sum in *. cbn [map fold_right]. rewrite IH. reflexivity.
Qed.

Lemma mean_map_Fin (l : list Q) :
  l <> [] -> np.mean (map Fin l) = Fin (qsum l / qlen l).
Proof.
  intros Hl. unfold np.mean. rewrite sum_map_Fin, length_map.
  unfold of_nat, of_int, ndiv. fold (qlen l).
  now rewrite (qlen_compare_pos l Hl).
Qed.

Lemma mean_nil : np.mean [] = NaN.
Proof. reflexivity. Qed.

Lemma qsum_cons (x : Q) (l : list Q) : qsum (x :: l) = x + qsum l.
Proof. reflexivity. Qed.

Lemma qsum_nonneg (l : list Q) : Forall (fun t => 0 <= t) l -> 0 <= qsum l.
Proof.
  induction 1 as [|t l Ht _ IH]; [cbn; lra | rewrite qsum_cons; lra].
Qed.

Lemma qsum_le_len (l : list Q) : Forall (fun t => t <= 1) l -> qsum l <= qlen l.
Proof.
  induction 1 as [|t l Ht _ IH].
  - unfold Qle. cbn. lia.
  - rewrite qlen_cons, qsum_cons. lra.
Qed.

Lemma qsum_zero_iff (l : list Q) :
  Forall (fun t => 0 <= t) l -> (qsum l == 0 <-> Forall (fun t => t == 0) l).
Proof.
  induction 1 as [|t l Ht Hl IH].
  - split; [constructor | reflexivity].
  - pose proof (qsum_nonneg l Hl) as Hs. rewrite qsum_cons. split.
    + intros H0. constructor; [lra|]. apply IH. lra.
    + intros Hall. inversion Hall as [|? ? Ht0 Hl0]; subst.
      apply IH in Hl0. lra.
Qed.

Lemma qdiv_zero_iff (s n : Q) : 0 < n -> (s / n == 0 <-> s == 0).
Proof.
  intros Hn. split; intros H.
  - assert (E : s == s / n * n) by (field; lra). rewrite E, H. ring.
  - rewrite H. field. lra.
Qed.

(** ** Element-wise operations on aligned arrays *)

Lemma broadcast_aligned {A B C : Type} (f : A -> B -> C) a b :
  length a = length b -> np.broadcast f a b = Ok (np.zip_with f a b).
Proof.
  intros H. unfold np.broadcast. now rewrite H, Nat.eqb_refl.
Qed.

Lemma zip_with_length {A B C : Type} (f : A -> B -> C) a b :
  length a = length b -> length (np.zip_with f a b) = length a.
Proof.
  revert b. induction a as [|x a IH]; intros [|y b] H; cbn in *; try lia.
  now rewrite IH by lia.
Qed.

Lemma zip_with_map_Fin (f : Q -> Q -> Q) (g : num -> num -> num) :
  (forall a b, g (Fin a) (Fin b) = Fin (f a b)) ->
  forall a b, np.zip_with g (map Fin a) (map Fin b) = map Fin (np.zip_with f a b).
Proof.
  intros Hg. induction a as [|x a IH]; intros [|y b]; cbn; try reflexivity.
  now rewrite Hg, IH.
Qed.

Lemma square_map_Fin (l : list Q) :
  np.square (map Fin l) = map Fin (map (fun d => d * d) l).
Proof. unfold np.square. rewrite !map_map. reflexivity. Qed.

(** ** The Brier score *)

(** The squared differences [(y_proba - y_true_proba) ** 2], as the code
    computes them on finite entries. *)
Definition sq_diffs (ps ys : list Q) : list Q :=
  map (fun d => d * d) (np.zip_with Qminus ps ys).

Lemma sq_diffs_length ps ys :
  length ys = length ps -> length (sq_diffs ps ys) = length ps.
Proof.
  intros H. unfold sq_diffs. rewrite length_map. now apply zip_with_length.
Qed.

Lemma brier_call_finite (ys ps : list Q) :
  length ys = length ps -> ps <> [] ->
  BrierScore.__call__ (map Fin ys) (map Fin ps)
  = Ok (Fin (qsum (sq_diffs ps ys) / qlen ps)).
Proof.
  intros Hlen Hne. unfold BrierScore.__call__, np.subtract.
  rewrite broadcast_aligned by (now rewrite !length_map).
  cbn [bind]. rewrite (zip_with_map_Fin Qminus) by reflexivity.
  rewrite square_map_Fin. fold (sq_diffs ps ys).
  rewrite mean_map_Fin.
  - unfold qlen. now rewrite sq_diffs_length.
  - intros E. apply (f_equal (@length Q)) in E.
    rewrite sq_diffs_length in E by assumption.
    destruct ps; [congruence | discriminate].
Qed.

(** The formula in the words of the specification: the mean, over the
    instances, of (forecast probability - observed outcome) squared. *)
Definition brier_formula (outcomes forecasts : list Q) : Q :=
  qsum (map (fun yp => (snd yp - fst yp) ^ 2) (combine outcomes forecasts))
  / qlen forecasts.

Lemma qsum_sq_diffs (ys ps : list Q) :
  qsum (sq_diffs ps ys)
  == qsum (map (fun yp => (snd yp - fst yp) ^ 2) (combine ys ps)).
Proof.
  revert ps. induction ys as [|y ys IH]; intros [|p ps]; try reflexivity.
  unfold sq_diffs in *. cbn [np.zip_with map combine fst snd].
  rewrite !qsum_cons, IH. ring.
Qed.

(** C1.  On aligned, non-empty arrays the direct entry point of [BrierScore]
    returns the mean over the instances of (y_proba - y_true_proba) squared;
    on [0,0,1,1] against [0.1,0.2,0.8,0.9] it returns 0.025. *)
Theorem brier_score_is_mean_squared_error :
  (forall ys ps : list Q,
      length ys = length ps -> ps <> [] ->
      exists q, BrierScore.__call__ (map Fin ys) (map Fin ps) = Ok (Fin q)
                /\ q == brier_formula ys ps)
  /\ (exists q,
         BrierScore.__call__ (map Fin [0; 0; 1; 1])
                             (map Fin [1 # 10; 2 # 10; 8 # 10; 9 # 10])
         = Ok (Fin q)
         /\ q == qsum [1 # 100; 4 # 100; 4 # 100; 1 # 100] / 4
         /\ q == 25 # 1000).
Proof.
  split.
  - intros ys ps Hlen Hne. eexists. split.
    + now apply brier_call_finite.
    + unfold brier_formula. now rewrite qsum_sq_diffs.
  - eexists. split; [reflexivity|]. split; reflexivity.
Qed.

Lemma brier_score_is_mean_squared_error_witness :
  exists q, BrierScore.__call__ (map Fin [0; 1]) (map Fin [1 # 2; 1 # 2])
            = Ok (Fin q)
            /\ q == brier_formula [0; 1] [1 # 2; 1 # 2].
Proof.
  apply (proj1 brier_score_is_mean_squared_error [0; 1] [1 # 2; 1 # 2]).
  - reflexivity.
  - discriminate.
Defined.

(** Every squared difference of a forecast in [0,1] and an outcome in {0,1}
    lies in [0,1], and vanishes exactly when the two agree. *)
Lemma sq_diffs_bounds (ys ps : list Q) :
  length ys = length ps ->
  Forall (fun y => y == 0 \/ y == 1) ys ->
  Forall (fun p => 0 <= p <= 1) ps ->
  Forall (fun t => 0 <= t) (sq_diffs ps ys)
  /\ Forall (fun t => t <= 1) (sq_diffs ps ys).
Proof.
  revert ps. induction ys as [|y ys IH]; intros [|p ps] Hlen Hy Hp;
    try discriminate; unfold sq_diffs in *; cbn [np.zip_with map].
  - split; constructor.
  - inversion Hy as [|? ? Hy0 Hys]; inversion Hp as [|? ? Hp0 Hps]; subst.
    destruct (IH ps) as [IH0 IH1]; [cbn in Hlen; lia | assumption..|].
    split; constructor; try assumption; destruct Hy0 as [E | E]; nra.
Qed.

Lemma sq_diffs_zero_iff (ys ps : list Q) :
  length ys = length ps ->
  (Forall (fun t => t == 0) (sq_diffs ps ys) <-> Forall2 Qeq ps ys).
Proof.
  revert ps. induction ys as [|y ys IH]; intros [|p ps] Hlen;
    try discriminate; unfold sq_diffs in *; cbn [np.zip_with map].
  - split; constructor.
  - specialize (IH ps ltac:(cbn in Hlen; lia)). split; intros H.
    + inversion H as [|? ? H0 Hrest]; subst. constructor.
      * nra.
      * now apply IH.
    + inversion H as [|? ? ? ? H0 Hrest]; subst. constructor.
      * rewrite H0. ring.
      * now apply IH.
Qed.

(** C8, as the claim states it, fails in double precision: against the
    outcome 0, the forecast 2^-600 lies in [0, 1] and differs from the
    outcome, yet its squared difference underflows and the score is exactly
    0. *)
Lemma brier_score_zero_on_imperfect_forecast :
  PrimFloat.leb 0%float tiny = true
  /\ PrimFloat.leb tiny 1%float = true
  /\ PrimFloat.eqb tiny 0%float = false
  /\ BrierScore64.__call__ [0%float] [tiny] = 0%float.
Proof. repeat split; vm_compute; reflexivity. Qed.

(** C8, amended.  On non-empty aligned arrays with forecasts in [0,1] and
    outcomes in {0,1}, the Brier score lies in [0,1], and it is 0 when every
    prediction equals its outcome. *)
Theorem brier_score_in_unit_interval (ys ps : list Q) :
  length ys = length ps -> ps <> [] ->
  Forall (fun y => y == 0 \/ y == 1) ys ->
  Forall (fun p => 0 <= p <= 1) ps ->
  exists q, BrierScore.__call__ (map Fin ys) (map Fin ps) = Ok (Fin q)
            /\ BrierScore.minimum <= q <= BrierScore.maximum
            /\ (Forall2 Qeq ps ys -> q == 0).
Proof.
  intros Hlen Hne Hy Hp. eexists. split; [now apply brier_call_finite|].
  destruct (sq_diffs_bounds ys ps Hlen Hy Hp) as [H0 H1].
  pose proof (qlen_pos ps Hne) as Hn.
  pose proof (qsum_nonneg _ H0) as Hs0.
  pose proof (qsum_le_len _ H1) as Hs1.
  unfold qlen in Hs1 at 1. rewrite sq_diffs_length in Hs1 by assumption.
  fold (qlen ps) in Hs1.
  unfold BrierScore.minimum, BrierScore.maximum. repeat split.
  - apply Qle_shift_div_l; [assumption | lra].
  - apply Qle_shift_div_r; [assumption | lra].
  - intros Heq. apply (qdiv_zero_iff _ (qlen ps)); [assumption|].
    apply qsum_zero_iff; [assumption|]. now apply sq_diffs_zero_iff.
Qed.

Lemma brier_score_in_unit_interval_witness :
  exists q, BrierScore.__call__ (map Fin [0; 1]) (map Fin [1 # 4; 1]) = Ok (Fin q)
            /\ BrierScore.minimum <= q <= BrierScore.maximum
            /\ (Forall2 Qeq [1 # 4; 1] [0; 1] -> q == 0).
Proof.
  apply (brier_score_in_unit_interval [0; 1] [1 # 4; 1]).
  - reflexivity.
  - discriminate.
  - constructor; [left; reflexivity|].
    constructor; [right; reflexivity | constructor].
  - repeat constructor; unfold Qle; cbn; lia.
Defined.

(** ** The default bins *)

Definition zsum (l : list Z) : Z := fold_right Z.add 0%Z l.

Lemma zsum_cons (z : Z) (l : list Z) : zsum (z :: l) = (z + zsum l)%Z.
Proof. reflexivity. Qed.

Lemma monotone_cons (lo hi : Q) (rest : list Q) :
  np.monotone (lo :: hi :: rest) = true ->
  lo <= hi /\ np.monotone (hi :: rest) = true.
Proof.
  cbn [np.monotone]. intros H. apply andb_true_iff in H as [H1 H2].
  apply Qle_bool_iff in H1. now split.
Qed.

Lemma monotone_head_le_last (edges : list Q) (lo d : Q) :
  np.monotone (lo :: edges) = true -> lo <= last (lo :: edges) d.
Proof.
  revert lo. induction edges as [|hi rest IH]; intros lo H.
  - cbn. lra.
  - apply monotone_cons in H as [Hle Hm]. specialize (IH hi Hm).
    change (last (lo :: hi :: rest) d) with (last (hi :: rest) d). lra.
Qed.

Lemma Qle_bool_false (a b : Q) : Qle_bool a b = false <-> b < a.
Proof.
  split; intros H.
  - apply Qnot_le_lt. intros Hle. apply Qle_bool_iff in Hle. congruence.
  - destruct (Qle_bool a b) eqn:E; [|reflexivity].
    apply Qle_bool_iff in E. lra.
Qed.

(** Over non-decreasing edges a value is counted in exactly one bin when it
    lies between the first and the last edge (both included), and in no bin
    otherwise. *)
Lemma counts_single (x : Q) (edges : list Q) (lo d : Q) :
  edges <> [] -> np.monotone (lo :: edges) = true ->
  zsum (np.counts [Fin x] (lo :: edges))
  = if Qle_bool lo x && Qle_bool x (last (lo :: edges) d) then 1%Z else 0%Z.
Proof.
  revert lo. induction edges as [|hi rest IH]; intros lo Hne Hm;
    [congruence|].
  destruct rest as [|h2 rest].
  - cbn. destruct (Qle_bool lo x), (Qle_bool x hi); reflexivity.
  - apply monotone_cons in Hm as [Hle Hm].
    pose proof (monotone_head_le_last _ _ d Hm) as Hlast.
    specialize (IH hi ltac:(discriminate) Hm).
    change (np.counts [Fin x] (lo :: hi :: h2 :: rest))
      with (Z.of_nat (length (filter (np.in_bin false lo hi) [Fin x]))
            :: np.counts [Fin x] (hi :: h2 :: rest)).
    change (last (lo :: hi :: h2 :: rest) d)
      with (last (hi :: h2 :: rest) d).
    rewrite zsum_cons, IH.
    cbn [filter np.in_bin].
    destruct (Qle_bool lo x) eqn:E1, (Qle_bool hi x) eqn:E2,
             (Qle_bool x (last (hi :: h2 :: rest) d)) eqn:E3;
      cbn; try reflexivity; exfalso;
      repeat match goal with
             | H : Qle_bool _ _ = true |- _ => apply Qle_bool_iff in H
             | H : Qle_bool _ _ = false |- _ => apply Qle_bool_false in H
             end; lra.
Qed.

(** The edges written out: twelve of them, from 0 to 1.1. *)
Definition twelve_edges : list Q :=
  [0; 1 # 10; 2 # 10; 3 # 10; 4 # 10; 5 # 10; 6 # 10; 7 # 10; 8 # 10; 9 # 10;
   10 # 10; 11 # 10].

(** C3, as the claim states it, fails: the default edges make eleven bins,
    not ten. *)
Lemma default_bins_not_ten :
  ~ (forall a counts,
        np.histogram a (bins BrierScoreReliability.default) = Ok counts ->
        length counts = 10%nat).
Proof.
  intros H. specialize (H [] _ eq_refl). vm_compute in H. discriminate.
Qed.

(** The count of bin [i] is the number of entries between edges [i] and
    [i+1]: the left edge included, the right edge excluded unless the bin is
    the last one. *)
Lemma counts_nth (a : np.ndarray) (edges : list Q) (i : nat) :
  (S i < length edges)%nat ->
  nth i (np.counts a edges) 0%Z
  = Z.of_nat
      (length (filter (np.in_bin (S (S i) =? length edges)%nat
                                 (nth i edges 0) (nth (S i) edges 0))
                      a)).
Proof.
  revert i. induction edges as [|lo [|hi after] IH]; intros i Hi;
    try (cbn in Hi; lia).
  change (np.counts a (lo :: hi :: after))
    with (Z.of_nat (length (filter (np.in_bin (np.is_nil after) lo hi) a))
          :: np.counts a (hi :: after)).
  destruct i as [|i].
  - cbn [nth length Nat.eqb]. now destruct after.
  - cbn [nth]. rewrite IH by (cbn [length] in *; lia). reflexivity.
Qed.

Lemma in_bin_half_open (lo hi x : Q) :
  np.in_bin false lo hi (Fin x) = true <-> lo <= x < hi.
Proof.
  cbn [np.in_bin]. rewrite andb_true_iff, negb_true_iff, Qle_bool_iff,
    Qle_bool_false. reflexivity.
Qed.

Lemma in_bin_closed (lo hi x : Q) :
  np.in_bin true lo hi (Fin x) = true <-> lo <= x <= hi.
Proof.
  cbn [np.in_bin]. rewrite andb_true_iff, !Qle_bool_iff. reflexivity.
Qed.

Lemma default_edge (i : nat) :
  (i < 12)%nat -> nth i default_bins 0 == inject_Z (Z.of_nat i) / 10.
Proof.
  intros Hi. do 12 (destruct i as [|i]; [vm_compute; reflexivity|]). lia.
Qed.

(** C3, amended.  The default edges of both binned scorers are the twelve
    values 0, 0.1, ..., 1.1: they make exactly eleven bins, each of width
    0.1.  Bin [i], for [i] from 0 to 9, counts the entries [x] with
    [i/10 <= x < (i+1)/10] (half-open); the last bin counts those with
    [1 <= x <= 1.1] (closed).  So every value of [0, 1.1] falls in exactly
    one bin, and every value outside falls in none. *)
Theorem default_bins_eleven :
  bins BrierScoreReliability.default = default_bins
  /\ bins BrierScoreResolution.default = default_bins
  /\ Forall2 Qeq default_bins twelve_edges
  /\ (forall a, exists counts,
         np.histogram a default_bins = Ok counts /\ length counts = 11%nat)
  /\ (forall i, (i < 11)%nat ->
         nth (S i) default_bins 0 - nth i default_bins 0 == 1 # 10)
  /\ (forall x : Q,
         zsum (np.counts [Fin x] default_bins)
         = if Qle_bool 0 x && Qle_bool x (11 # 10) then 1%Z else 0%Z)
  /\ (forall (a : list Q) (i : nat), (i < 10)%nat ->
         exists inside : Q -> bool,
           nth i (np.counts (map Fin a) default_bins) 0%Z
           = Z.of_nat (length (filter inside a))
           /\ forall x, inside x = true
                        <-> inject_Z (Z.of_nat i) / 10 <= x
                            < inject_Z (Z.of_nat (S i)) / 10)
  /\ (forall a : list Q,
         exists inside : Q -> bool,
           nth 10 (np.counts (map Fin a) default_bins) 0%Z
           = Z.of_nat (length (filter inside a))
           /\ forall x, inside x = true <-> 1 <= x <= 11 # 10).
Proof.
  split; [reflexivity|]. split; [reflexivity|]. split.
  { vm_compute. repeat constructor. }
  split.
  { intros a. eexists. split; [reflexivity|]. reflexivity. }
  split.
  { intros i Hi. do 11 (destruct i as [|i]; [vm_compute; reflexivity|]). lia. }
  split.
  { intros x.
    change default_bins with (hd 0 default_bins :: tl default_bins).
    rewrite (counts_single x _ _ 0); [|discriminate|reflexivity].
    assert (Hlo : hd 0 default_bins == 0) by reflexivity.
    assert (Hhi : last (hd 0 default_bins :: tl default_bins) 0 == 11 # 10)
      by reflexivity.
    revert Hlo Hhi.
    generalize (last (hd 0 default_bins :: tl default_bins) 0).
    generalize (hd 0 default_bins). intros lo hi Hlo Hhi.
    destruct (Qle_bool lo x) eqn:E1, (Qle_bool x hi) eqn:E2,
             (Qle_bool 0 x) eqn:E3, (Qle_bool x (11 # 10)) eqn:E4;
      try reflexivity; exfalso;
      repeat match goal with
             | H : Qle_bool _ _ = true |- _ => apply Qle_bool_iff in H
             | H : Qle_bool _ _ = false |- _ => apply Qle_bool_false in H
             end; lra. }
  split.
  - intros a i Hi.
    exists (fun x => np.in_bin false (nth i default_bins 0)
                               (nth (S i) default_bins 0) (Fin x)).
    split.
    + rewrite counts_nth by (change (length default_bins) with 12%nat; lia).
      assert (E : (S (S i) =? length default_bins)%nat = false).
      { change (length default_bins) with 12%nat. apply Nat.eqb_neq. lia. }
      rewrite E. f_equal.
      induction a as [|x a IH]; [reflexivity|].
      cbn [map filter].
      destruct (np.in_bin false (nth i default_bins 0)
                          (nth (S i) default_bins 0) (Fin x));
        cbn [length]; now rewrite IH.
    + intros x. rewrite in_bin_half_open.
      rewrite (default_edge i), (default_edge (S i)) by lia. reflexivity.
  - intros a.
    exists (fun x => np.in_bin true (nth 10 default_bins 0)
                               (nth 11 default_bins 0) (Fin x)).
    split.
    + rewrite counts_nth by (change (length default_bins) with 12%nat; lia).
      change (12 =? length default_bins)%nat with true. f_equal.
      induction a as [|x a IH]; [reflexivity|].
      cbn [map filter].
      destruct (np.in_bin true (nth 10 default_bins 0)
                          (nth 11 default_bins 0) (Fin x));
        cbn [length]; now rewrite IH.
    + intros x. rewrite in_bin_closed.
      rewrite (default_edge 10), (default_edge 11) by lia.
      assert (E1 : inject_Z (Z.of_nat 10) / 10 == 1) by reflexivity.
      assert (E2 : inject_Z (Z.of_nat 11) / 10 == 11 # 10) by reflexivity.
      rewrite E1, E2. reflexivity.
Qed.

(** C2.  The constructors do not compute midpoints: each entry of
    [bin_centers] is 0.05 times the width of its bin.  With the default edges
    every one of the eleven entries is 0.005, and the entry of the bin
    [0.5, 0.6), whose midpoint is 0.55, lies outside that bin. *)
Theorem default_bin_centers_are_scaled_widths :
  Forall (fun c => c == 5 # 1000) (bin_centers BrierScoreReliability.default)
  /\ Forall (fun c => c == 5 # 1000) (bin_centers BrierScoreResolution.default)
  /\ length (bin_centers BrierScoreReliability.default) = 11%nat
  /\ nth 5 default_bins 0 == 5 # 10
  /\ nth 6 default_bins 0 == 6 # 10
  /\ np.in_bin false (nth 5 default_bins 0) (nth 6 default_bins 0)
               (Fin (nth 5 (bin_centers BrierScoreReliability.default) 0))
     = false
  /\ np.in_bin false (nth 5 default_bins 0) (nth 6 default_bins 0)
               (Fin (55 # 100))
     = true.
Proof.
  repeat split; try reflexivity;
    vm_compute; repeat constructor.
Qed.

(** ** The shared scoring protocol *)

(** What the four [score_function] bodies have in common, as a function of
    the formula they end with. *)
Definition protocol (call : np.ndarray -> np.ndarray -> result num)
           (ground_truths predictions : Predictions)
           (valid_indexes : option np.index) : result num :=
  let valid_indexes :=
    match valid_indexes with
    | None => np.Slice None None
    | Some ix => ix
    end in
  sel <- np.getitem_rows (y_pred predictions) valid_indexes ;;
  y_proba <- np.column sel 1 ;;
  y_true_proba <-
    np.getitem (y_pred_label_index ground_truths) valid_indexes ;;
  _ <- BaseScoreType.check_y_pred_dimensions y_true_proba y_proba ;;
  call y_true_proba y_proba.

Lemma brier_score_protocol :
  BrierScore.score_function = protocol BrierScore.__call__.
Proof. reflexivity. Qed.

Lemma brier_skill_score_protocol :
  BrierSkillScore.score_function = protocol BrierSkillScore.__call__.
Proof. reflexivity. Qed.

Lemma reliability_protocol (self : Binned) :
  BrierScoreReliability.score_function self
  = protocol (BrierScoreReliability.__call__ self).
Proof. reflexivity. Qed.

Lemma resolution_protocol (self : Binned) :
  BrierScoreResolution.score_function self
  = protocol (BrierScoreResolution.__call__ self).
Proof. reflexivity. Qed.

Definition selected (valid_indexes : option np.index) : np.index :=
  match valid_indexes with
  | None => np.Slice None None
  | Some ix => ix
  end.

Lemma protocol_mismatch call ground_truths predictions valid_indexes
      sel y_proba y_true_proba :
  np.getitem_rows (y_pred predictions) (selected valid_indexes) = Ok sel ->
  np.column sel 1 = Ok y_proba ->
  np.getitem (y_pred_label_index ground_truths) (selected valid_indexes)
  = Ok y_true_proba ->
  length y_true_proba <> length y_proba ->
  protocol call ground_truths predictions valid_indexes
  = Raise ValueError_dimensions.
Proof.
  intros Hsel Hcol Htrue Hlen. unfold protocol. fold (selected valid_indexes).
  rewrite Hsel. cbn [bind]. rewrite Hcol. cbn [bind]. rewrite Htrue.
  cbn [bind]. unfold BaseScoreType.check_y_pred_dimensions.
  apply Nat.eqb_neq in Hlen. now rewrite Hlen.
Qed.

(** C4.  Whenever the outcome column and the second-class probability column
    selected by [valid_indexes] differ in length, [score_function] of each of
    the four scorers raises the dimension-mismatch error; no score is
    computed. *)
Theorem score_function_rejects_mismatch
        (ground_truths predictions : Predictions)
        (valid_indexes : option np.index)
        (sel : np.matrix) (y_proba y_true_proba : np.ndarray) :
  np.getitem_rows (y_pred predictions) (selected valid_indexes) = Ok sel ->
  np.column sel 1 = Ok y_proba ->
  np.getitem (y_pred_label_index ground_truths) (selected valid_indexes)
  = Ok y_true_proba ->
  length y_true_proba <> length y_proba ->
  BrierScore.score_function ground_truths predictions valid_indexes
  = Raise ValueError_dimensions
  /\ BrierSkillScore.score_function ground_truths predictions valid_indexes
     = Raise ValueError_dimensions
  /\ (forall self,
         BrierScoreReliability.score_function
           self ground_truths predictions valid_indexes
         = Raise ValueError_dimensions)
  /\ (forall self,
         BrierScoreResolution.score_function
           self ground_truths predictions valid_indexes
         = Raise ValueError_dimensions).
Proof.
  intros Hsel Hcol Htrue Hlen.
  rewrite brier_score_protocol, brier_skill_score_protocol.
  repeat split; try intros self;
    try rewrite reliability_protocol; try rewrite resolution_protocol;
    eapply protocol_mismatch; eassumption.
Qed.

(** Four outcomes against three predictions. *)
Definition four_truths : Predictions :=
  {| y_pred := {| np.ncols := 2; np.rows := [] |};
     y_pred_label_index := map Fin [0; 0; 1; 1] |}.

Definition three_predictions : Predictions :=
  {| y_pred :=
       {| np.ncols := 2;
          np.rows := map (map Fin)
                         [[9 # 10; 1 # 10]; [8 # 10; 2 # 10]; [2 # 10; 8 # 10]] |};
     y_pred_label_index := [] |}.

Lemma score_function_rejects_mismatch_witness :
  BrierScore.score_function four_truths three_predictions None
  = Raise ValueError_dimensions
  /\ BrierSkillScore.score_function four_truths three_predictions None
     = Raise ValueError_dimensions
  /\ (forall self,
         BrierScoreReliability.score_function
           self four_truths three_predictions None
         = Raise ValueError_dimensions)
  /\ (forall self,
         BrierScoreResolution.score_function
           self four_truths three_predictions None
         = Raise ValueError_dimensions).
Proof.
  eapply (score_function_rejects_mismatch four_truths three_predictions None).
  - reflexivity.
  - reflexivity.
  - reflexivity.
  - vm_compute. discriminate.
Defined.

(** ** Selecting every position *)

Lemma item_app {A : Type} (pre : list A) (x : A) (post : list A) :
  np.item (pre ++ x :: post) (Z.of_nat (length pre)) = Ok x.
Proof.
  unfold np.item.
  assert (E : (Z.of_nat (length pre) <? 0)%Z = false) by (apply Z.ltb_ge; lia).
  rewrite E, E, Nat2Z.id, nth_error_app2 by lia.
  now rewrite Nat.sub_diag.
Qed.

Lemma take_seq {A : Type} (a pre : list A) :
  np.take (pre ++ a) (map Z.of_nat (seq (length pre) (length a))) = Ok a.
Proof.
  revert pre. induction a as [|x a IH]; intros pre; [reflexivity|].
  cbn [length seq map np.take]. rewrite item_app. cbn [bind].
  specialize (IH (pre ++ [x])). rewrite <- app_assoc in IH. cbn [app] in IH.
  rewrite length_app in IH. cbn [length] in IH.
  rewrite Nat.add_1_r in IH. rewrite IH. reflexivity.
Qed.

Lemma take_all {A : Type} (a : list A) :
  np.take a (map Z.of_nat (seq 0 (length a))) = Ok a.
Proof. exact (take_seq a []). Qed.

Lemma slice_all {A : Type} (a : list A) :
  np.getitem a (np.Slice None None) = Ok a.
Proof.
  cbn. rewrite Z.sub_0_r, Nat2Z.id. now rewrite firstn_all.
Qed.

Lemma slice_zero_to_length {A : Type} (a : list A) :
  np.getitem a (np.Slice (Some 0%Z) (Some (Z.of_nat (length a)))) = Ok a.
Proof.
  unfold np.getitem, np.slice_bound.
  change (0 <? 0)%Z with false. cbv iota.
  destruct (Z.of_nat (length a) <? 0)%Z eqn:E; [apply Z.ltb_lt in E; lia|].
  rewrite Z.min_id, Z.min_r, Z.max_id, Z.max_r by lia.
  rewrite Z.sub_0_r, Nat2Z.id. cbn [Z.to_nat skipn]. now rewrite firstn_all.
Qed.

(** The explicit [valid_indexes] values that cover positions 0, ..., n-1 in
    order: the index sequence and the slice [0:n]. *)
Definition covers_all (n : nat) (ix : np.index) : Prop :=
  ix = np.Take (map Z.of_nat (seq 0 n))
  \/ ix = np.Slice (Some 0%Z) (Some (Z.of_nat n)).

Lemma getitem_covers_all {A : Type} (a : list A) (ix : np.index) :
  covers_all (length a) ix -> np.getitem a ix = Ok a.
Proof.
  intros [-> | ->]; [apply take_all | apply slice_zero_to_length].
Qed.

Lemma protocol_covers_all call ground_truths predictions (n : nat) ix :
  length (np.rows (y_pred predictions)) = n ->
  length (y_pred_label_index ground_truths) = n ->
  covers_all n ix ->
  protocol call ground_truths predictions None
  = protocol call ground_truths predictions (Some ix).
Proof.
  intros Hp Ht Hix. unfold protocol, np.getitem_rows.
  rewrite !slice_all.
  rewrite (getitem_covers_all (np.rows (y_pred predictions)) ix)
    by (now rewrite Hp).
  rewrite (getitem_covers_all (y_pred_label_index ground_truths) ix)
    by (now rewrite Ht).
  reflexivity.
Qed.

(** C7.  For aligned ground truths and predictions of [n] instances, each of
    the four [score_function]s gives with [valid_indexes = None] the result it
    gives with an explicit [valid_indexes] covering the positions 0, ..., n-1
    in order. *)
Theorem score_function_all_positions
        (ground_truths predictions : Predictions) (n : nat) (ix : np.index) :
  length (np.rows (y_pred predictions)) = n ->
  length (y_pred_label_index ground_truths) = n ->
  covers_all n ix ->
  BrierScore.score_function ground_truths predictions None
  = BrierScore.score_function ground_truths predictions (Some ix)
  /\ BrierSkillScore.score_function ground_truths predictions None
     = BrierSkillScore.score_function ground_truths predictions (Some ix)
  /\ (forall self,
         BrierScoreReliability.score_function
           self ground_truths predictions None
         = BrierScoreReliability.score_function
             self ground_truths predictions (Some ix))
  /\ (forall self,
         BrierScoreResolution.score_function
           self ground_truths predictions None
         = BrierScoreResolution.score_function
             self ground_truths predictions (Some ix)).
Proof.
  intros Hp Ht Hix.
  rewrite brier_score_protocol, brier_skill_score_protocol.
  repeat split; try intros self;
    try rewrite reliability_protocol; try rewrite resolution_protocol;
    now apply (protocol_covers_all _ _ _ n).
Qed.

(** Four aligned instances. *)
Definition truths4 : Predictions :=
  {| y_pred := {| np.ncols := 2; np.rows := [] |};
     y_pred_label_index := map Fin [0; 0; 1; 1] |}.

Definition predictions4 : Predictions :=
  {| y_pred :=
       {| np.ncols := 2;
          np.rows := map (map Fin)
                         [[9 # 10; 1 # 10]; [8 # 10; 2 # 10];
                          [2 # 10; 8 # 10]; [1 # 10; 9 # 10]] |};
     y_pred_label_index := [] |}.

Lemma score_function_all_positions_witness :
  BrierScore.score_function truths4 predictions4 None
  = BrierScore.score_function truths4 predictions4
                              (Some (np.Take [0; 1; 2; 3]%Z))
  /\ BrierScore.score_function truths4 predictions4 None
     = Ok (Fin (10000000 # 400000000)).
Proof.
  split; [|reflexivity].
  apply (score_function_all_positions truths4 predictions4 4
                                      (np.Take [0; 1; 2; 3]%Z)).
  - reflexivity.
  - reflexivity.
  - left. reflexivity.
Defined.

(** ** The binned scorers *)

Lemma counts_length (a : np.ndarray) (edges : list Q) :
  length (np.counts a edges) = pred (length edges).
Proof.
  induction edges as [|lo [|hi rest] IH]; try reflexivity.
  change (np.counts a (lo :: hi :: rest))
    with (Z.of_nat (length (filter (np.in_bin (np.is_nil rest) lo hi) a))
          :: np.counts a (hi :: rest)).
  cbn [length pred] in *. now rewrite IH.
Qed.

Lemma rel_freq_ok (a b : np.ndarray) (edges : list Q) :
  np.true_divide (np.astype_float (np.counts a edges))
                 (np.astype_float (np.counts b edges))
  = Ok (np.zip_with ndiv (np.astype_float (np.counts a edges))
                    (np.astype_float (np.counts b edges))).
Proof.
  apply broadcast_aligned. unfold np.astype_float.
  now rewrite !length_map, !counts_length.
Qed.

(** C10.  With no instance at all, the direct entry points of the two binned
    scorers raise [ZeroDivisionError] at [1 / float(y_proba.size)] (whatever
    the edges, they return no score), while the one of [BrierScore] returns
    not-a-number. *)
Theorem empty_input_raises_in_binned_scorers :
  (forall self,
      np.monotone (bins self) = true ->
      BrierScoreReliability.__call__ self [] [] = Raise ZeroDivisionError
      /\ BrierScoreResolution.__call__ self [] [] = Raise ZeroDivisionError)
  /\ (forall self,
         exists e, BrierScoreReliability.__call__ self [] [] = Raise e)
  /\ (forall self,
         exists e, BrierScoreResolution.__call__ self [] [] = Raise e)
  /\ BrierScore.__call__ [] [] = Ok NaN.
Proof.
  assert (R : forall self,
             np.monotone (bins self) = true ->
             BrierScoreReliability.__call__ self [] [] = Raise ZeroDivisionError).
  { intros self Hm. unfold BrierScoreReliability.__call__, np.histogram.
    cbn [np.equal map np.mask_index length Nat.eqb combine filter bind].
    rewrite Hm. cbn [bind]. rewrite rel_freq_ok. reflexivity. }
  assert (S : forall self,
             np.monotone (bins self) = true ->
             BrierScoreResolution.__call__ self [] [] = Raise ZeroDivisionError).
  { intros self Hm. unfold BrierScoreResolution.__call__, np.histogram.
    cbn [np.equal map np.mask_index length Nat.eqb combine filter bind].
    rewrite Hm. cbn [bind]. rewrite rel_freq_ok. reflexivity. }
  split; [intros self Hm; split; auto|].
  split; [|split; [|reflexivity]]; intros self;
    destruct (np.monotone (bins self)) eqn:Hm.
  - eexists. now apply R.
  - eexists. unfold BrierScoreReliability.__call__, np.histogram.
    cbn [np.equal map np.mask_index length Nat.eqb combine filter bind].
    rewrite Hm. reflexivity.
  - eexists. now apply S.
  - eexists. unfold BrierScoreResolution.__call__, np.histogram.
    cbn [np.equal map np.mask_index length Nat.eqb combine filter bind].
    rewrite Hm. reflexivity.
Qed.

Lemma empty_input_raises_in_binned_scorers_witness :
  BrierScoreReliability.__call__ BrierScoreReliability.default [] []
  = Raise ZeroDivisionError
  /\ BrierScoreResolution.__call__ BrierScoreReliability.default [] []
     = Raise ZeroDivisionError.
Proof.
  apply (proj1 empty_input_raises_in_binned_scorers
               BrierScoreReliability.default).
  reflexivity.
Defined.

(** ** The Brier skill score on constant outcomes *)

(** Numbers that are not negative: what a mean of squares can be. *)
Definition not_negative (x : num) : Prop :=
  match x with
  | Fin q => 0 <= q
  | PInf | NaN => True
  | NInf => False
  end.

Lemma square_not_negative (x : num) : not_negative (nmul x x).
Proof. destruct x as [a| | |]; cbn; try exact I. nra. Qed.

Lemma nadd_not_negative (x y : num) :
  not_negative x -> not_negative y -> not_negative (nadd x y).
Proof.
  destruct x as [a| | |], y as [b| | |]; cbn; try tauto. intros; lra.
Qed.

Lemma sum_not_negative (a : np.ndarray) :
  Forall not_negative a -> not_negative (np.sum a).
Proof.
  induction 1 as [|x a Hx _ IH]; unfold np.sum; cbn [fold_right].
  - cbn. lra.
  - now apply nadd_not_negative.
Qed.

Lemma mean_square_not_negative (a : np.ndarray) :
  not_negative (np.mean (np.square a)).
Proof.
  unfold np.mean.
  assert (Hs : not_negative (np.sum (np.square a))).
  { apply sum_not_negative. unfold np.square. apply Forall_map.
    apply Forall_forall. intros x _. apply square_not_negative. }
  pose proof (qlen_nonneg (np.square a)) as Hn.
  unfold of_nat, of_int. fold (qlen (np.square a)).
  destruct (np.sum (np.square a)) as [s| | |]; cbn in *; try tauto.
  - destruct (qlen (np.square a) ?= 0) eqn:E.
    + destruct (s ?= 0) eqn:E'; cbn; try exact I.
      apply Qlt_alt in E'. lra.
    + apply Qlt_alt in E. lra.
    + apply Qgt_alt in E. cbn. apply Qle_shift_div_l; lra.
  - destruct (qlen (np.square a) ?= 0) eqn:E; cbn; try exact I.
    apply Qlt_alt in E. lra.
Qed.

Lemma qsum_constant (c : Q) (ys : list Q) :
  Forall (fun y => y == c) ys -> qsum ys == c * qlen ys.
Proof.
  induction 1 as [|y ys Hy _ IH].
  - unfold qlen. cbn. ring.
  - rewrite qsum_cons, qlen_cons, IH, Hy. ring.
Qed.

Lemma qsum_all_zero (l : list Q) : Forall (fun t => t == 0) l -> qsum l == 0.
Proof.
  induction 1 as [|t l Ht _ IH]; [reflexivity|].
  rewrite qsum_cons, Ht, IH. ring.
Qed.

Lemma bs_c_finite (ys : list Q) :
  ys <> [] ->
  BrierSkillScore.bs_c (map Fin ys)
  = Fin (qsum (map (fun d => d * d)
                   (map (fun y => qsum ys / qlen ys + - y) ys))
         / qlen ys).
Proof.
  intros Hne. unfold BrierSkillScore.bs_c. rewrite mean_map_Fin by assumption.
  unfold np.rsubtract. rewrite map_map. cbn [nsub nneg nadd].
  rewrite <- (map_map (fun y => qsum ys / qlen ys + - y) Fin).
  rewrite square_map_Fin, mean_map_Fin.
  - unfold qlen. now rewrite !length_map.
  - destruct ys; [congruence | discriminate].
Qed.

(** C6.  When the outcomes are all the same value (and there is at least
    one), the reference variance is zero and [BrierSkillScore] divides the
    Brier score by it with no check: the call raises nothing and its result
    is what the zero-division convention gives, minus infinity when the Brier
    score is positive and not-a-number when it is zero, never a finite
    score. *)
Theorem skill_score_divides_by_zero_variance
        (c : Q) (ys : list Q) (y_proba : np.ndarray) :
  ys <> [] ->
  Forall (fun y => y == c) ys ->
  length y_proba = length ys ->
  exists z bs r,
    BrierSkillScore.bs_c (map Fin ys) = Fin z
    /\ z == 0
    /\ BrierScore.__call__ (map Fin ys) y_proba = Ok bs
    /\ BrierSkillScore.__call__ (map Fin ys) y_proba = Ok r
    /\ r = nsub (Fin 1) (ndiv bs (Fin z))
    /\ (r = NInf \/ r = NaN)
    /\ (forall b, bs = Fin b -> 0 < b -> r = NInf)
    /\ (forall b, bs = Fin b -> b == 0 -> r = NaN).
Proof.
  intros Hne Hc Hlen.
  pose proof (qlen_pos ys Hne) as Hn.
  assert (Hm : qsum ys / qlen ys == c).
  { rewrite (qsum_constant c ys Hc). field. lra. }
  assert (Hz : qsum (map (fun d => d * d)
                         (map (fun y => qsum ys / qlen ys + - y) ys))
               / qlen ys == 0).
  { apply qdiv_zero_iff; [assumption|]. apply qsum_all_zero.
    rewrite map_map. apply Forall_map.
    eapply Forall_impl; [|exact Hc]. cbn. intros y Hy. rewrite Hm, Hy. ring. }
  eexists. exists (np.mean (np.square (np.zip_with nsub y_proba (map Fin ys)))).
  eexists.
  split; [now apply bs_c_finite|]. split; [exact Hz|].
  unfold BrierScore.__call__, BrierSkillScore.__call__, np.subtract.
  rewrite broadcast_aligned by (now rewrite length_map).
  cbn [bind]. rewrite bs_c_finite by assumption.
  split; [reflexivity|]. split; [reflexivity|]. split; [reflexivity|].
  pose proof (mean_square_not_negative
                (np.zip_with nsub y_proba (map Fin ys))) as Hbs.
  apply Qeq_alt in Hz.
  destruct (np.mean (np.square (np.zip_with nsub y_proba (map Fin ys))))
    as [b| | |]; cbn [ndiv not_negative] in *; rewrite ?Hz.
  - destruct (b ?= 0) eqn:Eb.
    + split; [now right|]. split; [|reflexivity].
      intros b' [= <-] Hb. apply Qeq_alt in Eb. lra.
    + apply Qlt_alt in Eb. lra.
    + split; [now left|]. split; [reflexivity|].
      intros b' [= <-] Hb. apply Qgt_alt in Eb. lra.
  - split; [now left|]. split; discriminate.
  - contradiction.
  - split; [now right|]. split; discriminate.
Qed.

Lemma skill_score_divides_by_zero_variance_witness :
  exists z bs r,
    BrierSkillScore.bs_c (map Fin [1; 1]) = Fin z
    /\ z == 0
    /\ BrierScore.__call__ (map Fin [1; 1]) (map Fin [1; 0]) = Ok bs
    /\ BrierSkillScore.__call__ (map Fin [1; 1]) (map Fin [1; 0]) = Ok r
    /\ r = nsub (Fin 1) (ndiv bs (Fin z))
    /\ (r = NInf \/ r = NaN)
    /\ (forall b, bs = Fin b -> 0 < b -> r = NInf)
    /\ (forall b, bs = Fin b -> b == 0 -> r = NaN).
Proof.
  apply (skill_score_divides_by_zero_variance 1 [1; 1] (map Fin [1; 0])).
  - discriminate.
  - repeat constructor.
  - reflexivity.
Defined.

(** ** Empty bins *)

Lemma widths_length (edges : list Q) :
  length (np.zip_with Qminus (tl edges) (removelast edges))
  = pred (length edges).
Proof.
  induction edges as [|lo [|hi rest] IH]; try reflexivity.
  change (removelast (lo :: hi :: rest)) with (lo :: removelast (hi :: rest)).
  cbn [tl np.zip_with length pred] in *. now rewrite IH.
Qed.

Lemma make_bin_centers_length (edges : list Q) :
  length (make_bin_centers edges) = pred (length edges).
Proof.
  unfold make_bin_centers. rewrite !length_map. apply widths_length.
Qed.

(** A selection by a mask holds at most as many values of any kind as the
    whole array. *)
Lemma filter_mask_le {A : Type} (g : A -> bool) (a : list A) (mask : list bool) :
  (length (filter g (map fst (filter snd (combine a mask))))
   <= length (filter g a))%nat.
Proof.
  revert mask. induction a as [|x a IH]; intros [|b mask]; cbn; try lia.
  specialize (IH mask). destruct b; cbn; destruct (g x); cbn; lia.
Qed.

Lemma mask_index_selects {A : Type} (a positives : list A)
      (mask : list bool) :
  np.mask_index a mask = Ok positives ->
  positives = map fst (filter snd (combine a mask)).
Proof.
  unfold np.mask_index. destruct mask as [|b mask].
  - intros [= <-]. now destruct a.
  - destruct (length a =? length (b :: mask))%nat; [|discriminate].
    now intros [= <-].
Qed.

Lemma counts_masked (a positives : np.ndarray) (mask : list bool)
      (edges : list Q) :
  np.mask_index a mask = Ok positives ->
  Forall2 (fun p f => (0 <= p <= f)%Z)
          (np.counts positives edges) (np.counts a edges).
Proof.
  intros Hmask. apply mask_index_selects in Hmask. subst positives.
  induction edges as [|lo [|hi rest] IH]; try constructor.
  - pose proof (filter_mask_le (np.in_bin (np.is_nil rest) lo hi) a mask). lia.
  - exact IH.
Qed.

(** The relative frequency of a bin with no forecast is not-a-number. *)
Lemma rel_freq_of_empty_bins (pos fore : list Z) :
  Forall2 (fun p f => (0 <= p <= f)%Z) pos fore ->
  Forall2 (fun f r => f = 0%Z -> r = NaN)
          fore
          (np.zip_with ndiv (np.astype_float pos) (np.astype_float fore)).
Proof.
  induction 1 as [|p f pos fore Hpf _ IH]; cbn; constructor; [|exact IH].
  intros ->. assert (p = 0%Z) as -> by lia. reflexivity.
Qed.

(** The bins that hold at least one forecast, each with what the code knows
    of it. *)
Definition occupied {A : Type} (b : A * Z) : bool := negb (snd b =? 0)%Z.

Lemma nansum_skips_nan {T : Type} (term : T -> num) (qterm : T -> Q)
      (occ : T -> bool) (l : list T) :
  (forall b, occ b = false -> term b = NaN) ->
  (forall b, occ b = true -> exists q, term b = Fin q /\ q == qterm b) ->
  exists s, np.nansum (map term l) = Fin s
            /\ s == qsum (map qterm (filter occ l)).
Proof.
  intros Hempty Hocc. unfold np.nansum, np.sum.
  induction l as [|b l [s [Hs Es]]].
  - exists 0. split; reflexivity.
  - cbn [map fold_right filter]. rewrite Hs. destruct (occ b) eqn:E.
    + destruct (Hocc b E) as [q [Hq Eq]]. rewrite Hq.
      cbn [np.nan_to_zero nadd map].
      eexists. split; [reflexivity|].
      rewrite qsum_cons, Es, Eq. reflexivity.
    + rewrite (Hempty b E). cbn [np.nan_to_zero nadd].
      eexists. split; [reflexivity|]. rewrite Es. ring.
Qed.

Lemma of_int_nonzero (f : Z) : f <> 0%Z -> (inject_Z f ?= 0) <> Eq.
Proof.
  intros Hf E. apply Qeq_alt in E. apply Hf.
  unfold Qeq in E. cbn in E. lia.
Qed.

Lemma ndiv_ints (p f : Z) :
  f <> 0%Z -> ndiv (of_int p) (of_int f) = Fin (inject_Z p / inject_Z f).
Proof.
  intros Hf. unfold of_int, ndiv. pose proof (of_int_nonzero f Hf).
  destruct (inject_Z f ?= 0); congruence.
Qed.

(** What a bin adds to the sum of [BrierScoreReliability]. *)
Definition reliability_term (b : Q * Z * Z) : num :=
  let '(c, p, f) := b in
  let d := nsub (Fin c) (ndiv (of_int p) (of_int f)) in
  nmul (of_int f) (nmul d d).

Definition reliability_formula (b : Q * Z * Z) : Q :=
  let '(c, p, f) := b in
  inject_Z f * (c - inject_Z p / inject_Z f) ^ 2.

(** What a bin adds to the sum of [BrierScoreResolution]. *)
Definition resolution_term (climo : num) (b : Z * Z) : num :=
  let '(p, f) := b in
  let d := nsub (ndiv (of_int p) (of_int f)) climo in
  nmul (of_int f) (nmul d d).

Definition resolution_formula (climo : Q) (b : Z * Z) : Q :=
  let '(p, f) := b in
  inject_Z f * (inject_Z p / inject_Z f - climo) ^ 2.

Lemma reliability_terms (centers : list Q) (pos fore : list Z) :
  np.zip_with nmul (np.astype_float fore)
    (np.square
       (np.zip_with nsub (map Fin centers)
          (np.zip_with ndiv (np.astype_float pos) (np.astype_float fore))))
  = map reliability_term (combine (combine centers pos) fore).
Proof.
  revert pos fore.
  induction centers as [|c centers IH]; intros [|p pos] [|f fore];
    try reflexivity.
  cbn [np.astype_float np.square map np.zip_with combine] in *.
  now rewrite IH.
Qed.

Lemma resolution_terms (climo : num) (pos fore : list Z) :
  np.zip_with nmul (np.astype_float fore)
    (np.square
       (np.subtract_scalar
          (np.zip_with ndiv (np.astype_float pos) (np.astype_float fore))
          climo))
  = map (resolution_term climo) (combine pos fore).
Proof.
  revert fore. induction pos as [|p pos IH]; intros [|f fore];
    try reflexivity.
  cbn [np.astype_float np.square np.subtract_scalar map np.zip_with combine]
    in *.
  now rewrite IH.
Qed.

Lemma inf_times_zero (pos : bool) : inf_times pos (inject_Z 0) = NaN.
Proof. reflexivity. Qed.

Lemma reliability_term_empty (b : Q * Z * Z) :
  occupied b = false -> reliability_term b = NaN.
Proof.
  destruct b as [[c p] f]. unfold occupied. cbn [snd]. intros H.
  apply negb_false_iff, Z.eqb_eq in H. subst f.
  unfold reliability_term, of_int, ndiv.
  change (inject_Z 0 ?= 0) with Eq. cbv iota.
  destruct (inject_Z p ?= 0); reflexivity.
Qed.

Lemma reliability_term_occupied (b : Q * Z * Z) :
  occupied b = true ->
  exists q, reliability_term b = Fin q /\ q == reliability_formula b.
Proof.
  destruct b as [[c p] f]. unfold occupied. cbn [snd]. intros H.
  apply negb_true_iff, Z.eqb_neq in H.
  unfold reliability_term, reliability_formula. rewrite (ndiv_ints p f H).
  cbn. eexists. split; [reflexivity|]. ring.
Qed.

Lemma resolution_term_empty (climo : Q) (b : Z * Z) :
  occupied b = false -> resolution_term (Fin climo) b = NaN.
Proof.
  destruct b as [p f]. unfold occupied. cbn [snd]. intros H.
  apply negb_false_iff, Z.eqb_eq in H. subst f.
  unfold resolution_term, of_int, ndiv.
  change (inject_Z 0 ?= 0) with Eq. cbv iota.
  destruct (inject_Z p ?= 0); reflexivity.
Qed.

Lemma resolution_term_occupied (climo : Q) (b : Z * Z) :
  occupied b = true ->
  exists q, resolution_term (Fin climo) b = Fin q
            /\ q == resolution_formula climo b.
Proof.
  destruct b as [p f]. unfold occupied. cbn [snd]. intros H.
  apply negb_true_iff, Z.eqb_neq in H.
  unfold resolution_term, resolution_formula. rewrite (ndiv_ints p f H).
  cbn. eexists. split; [reflexivity|]. ring.
Qed.

Lemma mask_index_aligned (y_true_proba y_proba : np.ndarray) :
  length y_true_proba = length y_proba ->
  np.mask_index y_proba (np.equal y_true_proba (Fin 1))
  = Ok (map fst (filter snd (combine y_proba
                                     (np.equal y_true_proba (Fin 1))))).
Proof.
  intros H. unfold np.mask_index, np.equal.
  destruct y_true_proba as [|y y_true_proba].
  - now destruct y_proba.
  - cbn [map]. rewrite <- H. cbn [length]. now rewrite length_map, Nat.eqb_refl.
Qed.

Lemma rel_freq_length (a b : np.ndarray) (edges : list Q) :
  length (np.zip_with ndiv (np.astype_float (np.counts a edges))
                      (np.astype_float (np.counts b edges)))
  = pred (length edges).
Proof.
  rewrite zip_with_length; unfold np.astype_float;
    now rewrite !length_map, !counts_length.
Qed.

Lemma py_truediv_size {A : Type} (l : list A) :
  l <> [] ->
  py_truediv 1 (inject_Z (Z.of_nat (length l))) = Ok (Fin (1 / qlen l)).
Proof.
  intros Hl. unfold py_truediv. fold (qlen l).
  now rewrite (qlen_compare_pos l Hl).
Qed.

Lemma reliability_call name precision edges
      (y_true_proba y_proba positives : np.ndarray) :
  np.monotone edges = true ->
  y_proba <> [] ->
  np.mask_index y_proba (np.equal y_true_proba (Fin 1)) = Ok positives ->
  BrierScoreReliability.__call__
    (BrierScoreReliability.__init__ name precision edges) y_true_proba y_proba
  = Ok (nmul (Fin (1 / qlen y_proba))
             (np.nansum
                (map reliability_term
                     (combine (combine (make_bin_centers edges)
                                       (np.counts positives edges))
                              (np.counts y_proba edges))))).
Proof.
  intros Hm Hne Hmask.
  unfold BrierScoreReliability.__call__, BrierScoreReliability.__init__.
  cbn [bins bin_centers]. rewrite Hmask. cbn [bind].
  unfold np.histogram. rewrite Hm. cbn [bind].
  rewrite rel_freq_ok. cbn [bind].
  rewrite py_truediv_size by assumption. cbn [bind].
  unfold np.subtract. rewrite broadcast_aligned
    by (now rewrite length_map, make_bin_centers_length, rel_freq_length).
  cbn [bind]. unfold np.multiply. rewrite broadcast_aligned.
  - cbn [bind]. now rewrite reliability_terms.
  - unfold np.square, np.astype_float at 1.
    rewrite !length_map, zip_with_length, counts_length.
    + now rewrite length_map, make_bin_centers_length.
    + now rewrite length_map, make_bin_centers_length, rel_freq_length.
Qed.

Lemma resolution_call name precision edges
      (y_true_proba y_proba positives : np.ndarray) :
  np.monotone edges = true ->
  y_proba <> [] ->
  np.mask_index y_proba (np.equal y_true_proba (Fin 1)) = Ok positives ->
  BrierScoreResolution.__call__
    (BrierScoreResolution.__init__ name precision edges) y_true_proba y_proba
  = Ok (ndiv (nmul (Fin (1 / qlen y_proba))
                   (np.nansum
                      (map (resolution_term (np.mean y_true_proba))
                           (combine (np.counts positives edges)
                                    (np.counts y_proba edges)))))
             (nmul (np.mean y_true_proba)
                   (nsub (Fin 1) (np.mean y_true_proba)))).
Proof.
  intros Hm Hne Hmask.
  unfold BrierScoreResolution.__call__, BrierScoreResolution.__init__.
  cbn [bins bin_centers]. rewrite Hmask. cbn [bind].
  unfold np.histogram. rewrite Hm. cbn [bind].
  rewrite rel_freq_ok. cbn [bind].
  rewrite py_truediv_size by assumption. cbn [bind].
  unfold np.multiply. rewrite broadcast_aligned.
  - cbn [bind]. now rewrite resolution_terms.
  - unfold np.square, np.subtract_scalar, np.astype_float at 1.
    now rewrite !length_map, rel_freq_length, counts_length.
Qed.

(** C5.  For aligned arrays with at least one instance and non-decreasing
    edges, in both binned scorers: a bin with no forecast has a not-a-number
    relative frequency; the call raises nothing; and the aggregate is the sum
    over the occupied bins only, the not-a-number terms of the empty bins
    being left out.  ([BrierScoreResolution] is stated for a finite
    climatology.) *)
Theorem empty_bins_are_left_out name precision (edges : list Q)
        (y_true_proba y_proba : np.ndarray) :
  np.monotone edges = true ->
  length y_true_proba = length y_proba ->
  y_proba <> [] ->
  exists positives pos_obs_freq fore_freq pos_obs_rel_freq,
    np.mask_index y_proba (np.equal y_true_proba (Fin 1)) = Ok positives
    /\ np.histogram positives edges = Ok pos_obs_freq
    /\ np.histogram y_proba edges = Ok fore_freq
    /\ np.true_divide (np.astype_float pos_obs_freq)
                      (np.astype_float fore_freq) = Ok pos_obs_rel_freq
    /\ Forall2 (fun f r => f = 0%Z -> r = NaN) fore_freq pos_obs_rel_freq
    /\ (exists q,
           BrierScoreReliability.__call__
             (BrierScoreReliability.__init__ name precision edges)
             y_true_proba y_proba = Ok (Fin q)
           /\ q == 1 / qlen y_proba
                   * qsum (map reliability_formula
                               (filter occupied
                                  (combine (combine (make_bin_centers edges)
                                                    pos_obs_freq)
                                           fore_freq))))
    /\ (forall climo,
           np.mean y_true_proba = Fin climo ->
           exists s,
             BrierScoreResolution.__call__
               (BrierScoreResolution.__init__ name precision edges)
               y_true_proba y_proba
             = Ok (ndiv (Fin s) (nmul (Fin climo) (nsub (Fin 1) (Fin climo))))
             /\ s == 1 / qlen y_proba
                     * qsum (map (resolution_formula climo)
                                 (filter occupied
                                         (combine pos_obs_freq fore_freq)))).
Proof.
  intros Hm Hlen Hne.
  pose proof (mask_index_aligned _ _ Hlen) as Hmask.
  eexists. exists (np.counts
                     (map fst (filter snd (combine y_proba
                        (np.equal y_true_proba (Fin 1))))) edges).
  exists (np.counts y_proba edges). eexists.
  split; [exact Hmask|].
  unfold np.histogram. rewrite Hm.
  split; [reflexivity|]. split; [reflexivity|].
  split; [apply rel_freq_ok|].
  split.
  { apply rel_freq_of_empty_bins. eapply counts_masked. exact Hmask. }
  split.
  - rewrite (reliability_call _ _ _ _ _ _ Hm Hne Hmask).
    destruct (nansum_skips_nan reliability_term reliability_formula occupied
                (combine (combine (make_bin_centers edges)
                   (np.counts (map fst (filter snd (combine y_proba
                      (np.equal y_true_proba (Fin 1))))) edges))
                   (np.counts y_proba edges))
                reliability_term_empty reliability_term_occupied)
      as [s [Hs Es]].
    rewrite Hs. cbn [nmul]. eexists. split; [reflexivity|].
    now rewrite Es.
  - intros climo Hclimo.
    rewrite (resolution_call _ _ _ _ _ _ Hm Hne Hmask), Hclimo.
    destruct (nansum_skips_nan (resolution_term (Fin climo))
                (resolution_formula climo) occupied
                (combine
                   (np.counts (map fst (filter snd (combine y_proba
                      (np.equal y_true_proba (Fin 1))))) edges)
                   (np.counts y_proba edges))
                (resolution_term_empty climo)
                (resolution_term_occupied climo))
      as [s [Hs Es]].
    rewrite Hs. cbn [nmul]. eexists. split; [reflexivity|].
    now rewrite Es.
Qed.

Lemma empty_bins_are_left_out_witness :
  exists q,
    BrierScoreReliability.__call__
      BrierScoreReliability.default
      (map Fin [0; 1; 1]) (map Fin [15 # 100; 15 # 100; 1]) = Ok (Fin q).
Proof.
  destruct (empty_bins_are_left_out
              "brier_score"%string 3%Z default_bins
              (map Fin [0; 1; 1]) (map Fin [15 # 100; 15 # 100; 1])
              eq_refl eq_refl ltac:(discriminate))
    as (positives & pos & fore & rel & _ & _ & _ & _ & _ & [q [Hq _]] & _).
  exists q. exact Hq.
Defined.

(** ** Resolution without discrimination *)

Lemma no_skill_terms_vanish (climo : Q) (pos fore : list Z) :
  Forall2 (fun f r => f <> 0%Z -> exists v, r = Fin v /\ v == climo)
          fore
          (np.zip_with ndiv (np.astype_float pos) (np.astype_float fore)) ->
  Forall (fun t => t == 0)
         (map (resolution_formula climo)
              (filter occupied (combine pos fore))).
Proof.
  revert fore. induction pos as [|p pos IH]; intros [|f fore] H;
    try constructor.
  cbn [np.astype_float map np.zip_with] in H.
  inversion H as [|? ? ? ? Hf Hrest]; subst.
  cbn [combine filter]. unfold occupied at 1. cbn [snd].
  destruct (f =? 0)%Z eqn:E; cbn [negb map].
  - now apply IH.
  - apply Z.eqb_neq in E. constructor; [|now apply IH].
    destruct (Hf E) as [v [Hv Ev]].
    change (ndiv (of_int p) (of_int f) = Fin v) in Hv.
    rewrite (ndiv_ints p f E) in Hv. injection Hv as Hv. cbn [resolution_formula]. rewrite Hv, Ev. ring.
Qed.

(** C9.  When the climatology is strictly between 0 and 1 and the observed
    relative frequency of every bin that holds a forecast equals it,
    [BrierScoreResolution] returns 0. *)
Theorem resolution_zero_without_discrimination name precision
        (edges : list Q) (y_true_proba y_proba positives : np.ndarray)
        (pos_obs_freq fore_freq : list Z) (pos_obs_rel_freq : np.ndarray)
        (climo : Q) :
  np.monotone edges = true ->
  length y_true_proba = length y_proba ->
  np.mean y_true_proba = Fin climo ->
  0 < climo < 1 ->
  np.mask_index y_proba (np.equal y_true_proba (Fin 1)) = Ok positives ->
  np.histogram positives edges = Ok pos_obs_freq ->
  np.histogram y_proba edges = Ok fore_freq ->
  np.true_divide (np.astype_float pos_obs_freq) (np.astype_float fore_freq)
  = Ok pos_obs_rel_freq ->
  Forall2 (fun f r => f <> 0%Z -> exists v, r = Fin v /\ v == climo)
          fore_freq pos_obs_rel_freq ->
  exists q,
    BrierScoreResolution.__call__
      (BrierScoreResolution.__init__ name precision edges)
      y_true_proba y_proba = Ok (Fin q)
    /\ q == 0.
Proof.
  intros Hm Hlen Hclimo [Hc0 Hc1] Hmask Hpos Hfore Hrel Hall.
  assert (Hne : y_proba <> []).
  { intros ->. destruct y_true_proba; [discriminate Hclimo | discriminate]. }
  unfold np.histogram in Hpos, Hfore. rewrite Hm in Hpos, Hfore.
  injection Hpos as <-. injection Hfore as <-.
  rewrite rel_freq_ok in Hrel. injection Hrel as <-.
  rewrite (resolution_call _ _ _ _ _ _ Hm Hne Hmask), Hclimo.
  destruct (nansum_skips_nan (resolution_term (Fin climo))
              (resolution_formula climo) occupied
              (combine (np.counts positives edges) (np.counts y_proba edges))
              (resolution_term_empty climo)
              (resolution_term_occupied climo))
    as [s [Hs Es]].
  rewrite Hs. cbn [nmul nsub nneg nadd ndiv].
  rewrite (qsum_all_zero _ (no_skill_terms_vanish _ _ _ Hall)) in Es.
  assert (Hpos : 0 < climo * (1 + - climo))
    by (apply Qmult_lt_0_compat; lra).
  assert (Hu : (climo * (1 + - climo) ?= 0) = Gt) by (now apply Qgt_alt).
  rewrite Hu. eexists. split; [reflexivity|].
  pose proof (qlen_pos y_proba Hne) as Hn.
  rewrite Es. field. repeat split; lra.
Qed.

Lemma resolution_zero_without_discrimination_witness :
  exists q,
    BrierScoreResolution.__call__
      BrierScoreResolution.default
      (map Fin [0; 1; 0; 1])
      (map Fin [15 # 100; 15 # 100; 55 # 100; 55 # 100]) = Ok (Fin q)
    /\ q == 0.
Proof.
  eapply (resolution_zero_without_discrimination
            "brier_score"%string 3%Z default_bins
            (map Fin [0; 1; 0; 1])
            (map Fin [15 # 100; 15 # 100; 55 # 100; 55 # 100])
            _ _ _ _ _).
  - reflexivity.
  - reflexivity.
  - reflexivity.
  - split; reflexivity.
  - reflexivity.
  - reflexivity.
  - reflexivity.
  - reflexivity.
  - vm_compute.
    repeat (constructor;
            [first [ intros H; exfalso; apply H; reflexivity
                   | intros _; eexists; split; reflexivity ] |]).
    constructor.
Defined.


(** * Further properties of the scorers *)

(** ** What the constructors keep *)

(** X1.  Whatever edges they are given, the two constructors store one entry
    of [bin_centers] per bin, and every entry lies in [0, 1]: the two
    clipping assignments leave nothing above 1 or below 0. *)
Theorem bin_centers_clipped name precision (edges : list Q) :
  length (bin_centers (BrierScoreReliability.__init__ name precision edges))
  = pred (length edges)
  /\ Forall (fun c => 0 <= c <= 1)
            (bin_centers (BrierScoreReliability.__init__ name precision edges))
  /\ bin_centers (BrierScoreResolution.__init__ name precision edges)
     = bin_centers (BrierScoreReliability.__init__ name precision edges)
  /\ bins (BrierScoreReliability.__init__ name precision edges) = edges
  /\ bins (BrierScoreResolution.__init__ name precision edges) = edges.
Proof.
  cbn [BrierScoreReliability.__init__ BrierScoreResolution.__init__
       bin_centers bins].
  split; [apply make_bin_centers_length|]. split; [|repeat split].
  unfold make_bin_centers. rewrite !map_map. apply Forall_map.
  apply Forall_forall. intros w _.
  destruct (Qlt_le_dec 1 (w * (5 # 100))) as [H1 | H1];
    [destruct (Qlt_le_dec 1 0) as [H0 | H0]
    |destruct (Qlt_le_dec (w * (5 # 100)) 0) as [H0 | H0]]; lra.
Qed.

(** ** Counting forecasts *)

Lemma counts_special (x : num) (edges : list Q) :
  (forall v, x <> Fin v) -> zsum (np.counts [x] edges) = 0%Z.
Proof.
  intros Hx. induction edges as [|lo [|hi rest] IH]; try reflexivity.
  change (np.counts [x] (lo :: hi :: rest))
    with (Z.of_nat (length (filter (np.in_bin (np.is_nil rest) lo hi) [x]))
          :: np.counts [x] (hi :: rest)).
  rewrite zsum_cons, IH.
  destruct x as [v| | |]; [now destruct (Hx v)|reflexivity..].
Qed.

Lemma zsum_counts_cons (x : num) (a : np.ndarray) (edges : list Q) :
  zsum (np.counts (x :: a) edges)
  = (zsum (np.counts [x] edges) + zsum (np.counts a edges))%Z.
Proof.
  induction edges as [|lo [|hi rest] IH]; try reflexivity.
  change (np.counts (x :: a) (lo :: hi :: rest))
    with (Z.of_nat (length (filter (np.in_bin (np.is_nil rest) lo hi) (x :: a)))
          :: np.counts (x :: a) (hi :: rest)).
  change (np.counts [x] (lo :: hi :: rest))
    with (Z.of_nat (length (filter (np.in_bin (np.is_nil rest) lo hi) [x]))
          :: np.counts [x] (hi :: rest)).
  change (np.counts a (lo :: hi :: rest))
    with (Z.of_nat (length (filter (np.in_bin (np.is_nil rest) lo hi) a))
          :: np.counts a (hi :: rest)).
  rewrite !zsum_cons, IH. cbn [filter].
  destruct (np.in_bin (np.is_nil rest) lo hi x); cbn [length]; lia.
Qed.

(** Over non-decreasing edges the counts add up to the number of values that
    lie between the first and the last edge, both included. *)
Lemma zsum_counts (a : np.ndarray) (edges : list Q) (lo d : Q) :
  edges <> [] -> np.monotone (lo :: edges) = true ->
  zsum (np.counts a (lo :: edges))
  = Z.of_nat (length (filter (np.in_bin true lo (last (lo :: edges) d)) a)).
Proof.
  intros Hne Hm. induction a as [|x a IH].
  - destruct edges as [|hi rest]; [congruence|]. clear.
    revert lo hi. induction rest as [|h2 rest IH]; intros lo hi.
    + reflexivity.
    + change (np.counts [] (lo :: hi :: h2 :: rest))
        with (0%Z :: np.counts [] (hi :: h2 :: rest)).
      rewrite zsum_cons, IH. reflexivity.
  - rewrite zsum_counts_cons, IH. cbn [filter].
    destruct x as [v| | |].
    + rewrite (counts_single v edges lo d Hne Hm). cbn [np.in_bin].
      destruct (Qle_bool lo v && Qle_bool v (last (lo :: edges) d));
        cbn [length]; lia.
    + rewrite counts_special by discriminate. reflexivity.
    + rewrite counts_special by discriminate. reflexivity.
    + rewrite counts_special by discriminate. reflexivity.
Qed.

Lemma zsum_counts_le (a : np.ndarray) (edges : list Q) :
  np.monotone edges = true ->
  (zsum (np.counts a edges) <= Z.of_nat (length a))%Z.
Proof.
  intros Hm. destruct edges as [|lo [|hi rest]]; try (cbn; lia).
  rewrite (zsum_counts a (hi :: rest) lo 0) by (assumption || discriminate).
  pose proof (filter_length_le
                (np.in_bin true lo (last (lo :: hi :: rest) 0)) a). lia.
Qed.

(** X2.  With the default edges no forecast between 0 and 1.1 is dropped:
    when every entry of [y_proba] is such a value, the counts [fore_freq] of
    the two binned scorers add up to the number of instances. *)
Theorem default_bins_count_every_probability (ps : list Q) :
  Forall (fun p => 0 <= p <= 11 # 10) ps ->
  exists fore_freq,
    np.histogram (map Fin ps) (bins BrierScoreReliability.default)
    = Ok fore_freq
    /\ np.histogram (map Fin ps) (bins BrierScoreResolution.default)
       = Ok fore_freq
    /\ zsum fore_freq = Z.of_nat (length ps).
Proof.
  intros Hp. exists (np.counts (map Fin ps) default_bins).
  split; [reflexivity|]. split; [reflexivity|].
  change default_bins with (hd 0 default_bins :: tl default_bins).
  rewrite (zsum_counts _ _ _ 0); [|discriminate|reflexivity].
  f_equal. rewrite <- (length_map Fin ps). f_equal.
  apply forallb_filter_id. apply forallb_forall. intros x Hx.
  apply in_map_iff in Hx as [p [<- Hin]].
  rewrite Forall_forall in Hp. specialize (Hp p Hin).
  assert (Hlo : hd 0 default_bins == 0) by reflexivity.
  assert (Hhi : last (hd 0 default_bins :: tl default_bins) 0 == 11 # 10)
    by reflexivity.
  cbn [np.in_bin]. apply andb_true_iff.
  split; apply Qle_bool_iff; [rewrite Hlo | rewrite Hhi]; lra.
Qed.

Lemma default_bins_count_every_probability_witness :
  exists fore_freq,
    np.histogram (map Fin [0; 1 # 2; 1]) (bins BrierScoreReliability.default)
    = Ok fore_freq
    /\ np.histogram (map Fin [0; 1 # 2; 1]) (bins BrierScoreResolution.default)
       = Ok fore_freq
    /\ zsum fore_freq = Z.of_nat (length [0; 1 # 2; 1]).
Proof.
  apply (default_bins_count_every_probability [0; 1 # 2; 1]).
  repeat constructor; unfold Qle; cbn; lia.
Defined.

(** ** The range of the reliability and resolution scores *)

Lemma reliability_value name precision edges
      (y_true_proba y_proba positives : np.ndarray) :
  np.monotone edges = true ->
  y_proba <> [] ->
  np.mask_index y_proba (np.equal y_true_proba (Fin 1)) = Ok positives ->
  exists q,
    BrierScoreReliability.__call__
      (BrierScoreReliability.__init__ name precision edges)
      y_true_proba y_proba = Ok (Fin q)
    /\ q == 1 / qlen y_proba
            * qsum (map reliability_formula
                        (filter occupied
                                (combine (combine (make_bin_centers edges)
                                                  (np.counts positives edges))
                                         (np.counts y_proba edges)))).
Proof.
  intros Hm Hne Hmask.
  rewrite (reliability_call _ _ _ _ _ _ Hm Hne Hmask).
  destruct (nansum_skips_nan reliability_term reliability_formula occupied
              (combine (combine (make_bin_centers edges)
                                (np.counts positives edges))
                       (np.counts y_proba edges))
              reliability_term_empty reliability_term_occupied)
    as [s [Hs Es]].
  rewrite Hs. cbn [nmul]. eexists. split; [reflexivity|]. now rewrite Es.
Qed.

Lemma resolution_value name precision edges
      (y_true_proba y_proba positives : np.ndarray) (climo : Q) :
  np.monotone edges = true ->
  y_proba <> [] ->
  np.mask_index y_proba (np.equal y_true_proba (Fin 1)) = Ok positives ->
  np.mean y_true_proba = Fin climo ->
  exists s,
    BrierScoreResolution.__call__
      (BrierScoreResolution.__init__ name precision edges)
      y_true_proba y_proba
    = Ok (ndiv (Fin s) (Fin (climo * (1 + - climo))))
    /\ s == 1 / qlen y_proba
            * qsum (map (resolution_formula climo)
                        (filter occupied
                                (combine (np.counts positives edges)
                                         (np.counts y_proba edges)))).
Proof.
  intros Hm Hne Hmask Hclimo.
  rewrite (resolution_call _ _ _ _ _ _ Hm Hne Hmask), Hclimo.
  destruct (nansum_skips_nan (resolution_term (Fin climo))
              (resolution_formula climo) occupied
              (combine (np.counts positives edges) (np.counts y_proba edges))
              (resolution_term_empty climo) (resolution_term_occupied climo))
    as [s [Hs Es]].
  rewrite Hs. cbn [nmul nsub nneg nadd]. eexists. split; [reflexivity|].
  now rewrite Es.
Qed.

Lemma inject_Z_nonneg (z : Z) : (0 <= z)%Z -> 0 <= inject_Z z.
Proof. intros H. change 0 with (inject_Z 0). now rewrite <- Zle_Qle. Qed.

Lemma inject_Z_pos (z : Z) : (0 < z)%Z -> 0 < inject_Z z.
Proof. intros H. change 0 with (inject_Z 0). now rewrite <- Zlt_Qlt. Qed.

(** In an occupied bin the relative frequency of the positives lies in
    [0, 1]. *)
Lemma rel_freq_in_unit (p f : Z) :
  (0 <= p <= f)%Z -> f <> 0%Z -> 0 <= inject_Z p / inject_Z f <= 1.
Proof.
  intros Hpf Hf. assert (Hf0 : 0 < inject_Z f) by (apply inject_Z_pos; lia).
  split.
  - apply Qle_shift_div_l; [assumption|].
    pose proof (inject_Z_nonneg p ltac:(lia)). lra.
  - apply Qle_shift_div_r; [assumption|].
    assert (inject_Z p <= inject_Z f) by (rewrite <- Zle_Qle; lia). lra.
Qed.

Definition bin_facts (b : Q * Z * Z) : Prop :=
  let '(c, p, f) := b in 0 <= c <= 1 /\ (0 <= p <= f)%Z.

Lemma bins_facts (centers : list Q) (pos fore : list Z) :
  Forall (fun c => 0 <= c <= 1) centers ->
  Forall2 (fun p f => (0 <= p <= f)%Z) pos fore ->
  Forall bin_facts (combine (combine centers pos) fore).
Proof.
  intros Hc Hpf. revert centers Hc.
  induction Hpf as [|p f pos fore Hp _ IH]; intros centers Hc.
  - destruct centers; constructor.
  - destruct centers as [|c centers]; [constructor|].
    inversion Hc; subst. constructor; [now split | now apply IH].
Qed.

Lemma reliability_sum_bounds (l : list (Q * Z * Z)) :
  Forall bin_facts l ->
  0 <= qsum (map reliability_formula (filter occupied l))
  /\ qsum (map reliability_formula (filter occupied l))
     <= inject_Z (zsum (map snd l)).
Proof.
  induction 1 as [|[[c p] f] l [Hc Hpf] _ [IH0 IH1]].
  - split; unfold Qle; cbn; lia.
  - cbn [map snd filter]. rewrite zsum_cons, inject_Z_plus.
    change (occupied (c, p, f)) with (negb (f =? 0)%Z).
    destruct (f =? 0)%Z eqn:E; cbn [negb map].
    + apply Z.eqb_eq in E. subst f. split; [assumption|].
      change (inject_Z 0) with 0. lra.
    + apply Z.eqb_neq in E. rewrite qsum_cons. cbn [reliability_formula].
      pose proof (rel_freq_in_unit p f Hpf E) as Hr.
      assert (Hf0 : 0 < inject_Z f) by (apply inject_Z_pos; lia).
      remember (inject_Z p / inject_Z f) as r eqn:Er. clear Er.
      assert (Hsq : (c - r) ^ 2 == (c - r) * (c - r)) by ring.
      rewrite Hsq. remember (qsum _) as S eqn:ES. clear ES.
      remember (inject_Z (zsum _)) as T eqn:ET. clear ET.
      assert (Hx : -1 <= c - r <= 1) by lra.
      remember (c - r) as x eqn:Ex. clear Ex.
      assert (H0 : 0 <= x * x) by nra.
      assert (H1 : x * x <= 1) by nra.
      remember (x * x) as d eqn:Ed. clear Ed.
      split; nra.
Qed.

Lemma map_snd_combine_aligned {A B : Type} (a : list A) (b : list B) :
  length a = length b -> map snd (combine a b) = b.
Proof.
  revert b. induction a as [|x a IH]; intros [|y b] H; cbn in *;
    try reflexivity; try discriminate.
  now rewrite IH by lia.
Qed.

(** X3.  On aligned arrays with at least one instance, and with
    non-decreasing edges, [BrierScoreReliability] returns a finite score that
    lies between its declared [minimum] 0 and [maximum] 1. *)
Theorem reliability_in_unit_interval name precision (edges : list Q)
        (y_true_proba y_proba : np.ndarray) :
  np.monotone edges = true ->
  length y_true_proba = length y_proba ->
  y_proba <> [] ->
  exists q,
    BrierScoreReliability.__call__
      (BrierScoreReliability.__init__ name precision edges)
      y_true_proba y_proba = Ok (Fin q)
    /\ BrierScoreReliability.minimum <= q <= BrierScoreReliability.maximum.
Proof.
  intros Hm Hlen Hne.
  pose proof (mask_index_aligned _ _ Hlen) as Hmask.
  destruct (reliability_value name precision _ _ _ _ Hm Hne Hmask)
    as [q [Hq Eq]].
  exists q. split; [exact Hq|].
  destruct (bin_centers_clipped name precision edges) as [_ [Hc _]].
  cbn [BrierScoreReliability.__init__ bin_centers] in Hc.
  pose proof (bins_facts _ _ _ Hc (counts_masked _ _ _ edges Hmask)) as Hf.
  apply reliability_sum_bounds in Hf as [H0 H1].
  rewrite map_snd_combine_aligned in H1.
  2:{ rewrite length_combine, make_bin_centers_length, !counts_length. lia. }
  pose proof (zsum_counts_le y_proba edges Hm) as Hle.
  rewrite Zle_Qle in Hle. fold (qlen y_proba) in Hle.
  pose proof (qlen_pos y_proba Hne) as Hn.
  unfold BrierScoreReliability.minimum, BrierScoreReliability.maximum.
  rewrite Eq.
  set (S := qsum _) in *. set (n := qlen y_proba) in *.
  assert (E : 1 / n * S == S / n) by (field; lra). rewrite E. split.
  - apply Qle_shift_div_l; lra.
  - apply Qle_shift_div_r; lra.
Qed.

Lemma reliability_in_unit_interval_witness :
  exists q,
    BrierScoreReliability.__call__
      (BrierScoreReliability.__init__ "brier_score"%string 3%Z default_bins)
      (map Fin [0; 1]) (map Fin [2 # 10; 9 # 10]) = Ok (Fin q)
    /\ BrierScoreReliability.minimum <= q <= BrierScoreReliability.maximum.
Proof.
  apply (reliability_in_unit_interval "brier_score"%string 3%Z default_bins
           (map Fin [0; 1]) (map Fin [2 # 10; 9 # 10])).
  - reflexivity.
  - reflexivity.
  - discriminate.
Defined.

(** A bin whose observed relative frequency equals its entry of
    [bin_centers], when it holds a forecast. *)
Definition matches_center (b : Q * num * Z) : Prop :=
  let '(c, r, f) := b in f <> 0%Z -> exists v, r = Fin v /\ v == c.

Lemma calibrated_terms_vanish (centers : list Q) (pos fore : list Z) :
  Forall matches_center
         (combine (combine centers
                           (np.zip_with ndiv (np.astype_float pos)
                                        (np.astype_float fore)))
                  fore) ->
  Forall (fun t => t == 0)
         (map reliability_formula
              (filter occupied (combine (combine centers pos) fore))).
Proof.
  revert pos fore.
  induction centers as [|c centers IH]; intros [|p pos] [|f fore] H;
    try constructor.
  cbn [np.astype_float map np.zip_with combine] in H.
  inversion H as [|? ? Hb Hrest]; subst.
  cbn [combine filter].
  change (occupied (c, p, f)) with (negb (f =? 0)%Z).
  destruct (f =? 0)%Z eqn:E; cbn [negb map].
  - now apply IH.
  - apply Z.eqb_neq in E. constructor; [|now apply IH].
    destruct (Hb E) as [v [Hv Ev]].
    change (ndiv (of_int p) (of_int f) = Fin v) in Hv.
    rewrite (ndiv_ints p f E) in Hv. injection Hv as Hv.
    cbn [reliability_formula]. rewrite Hv, Ev. ring.
Qed.

(** X4.  When, in every bin that holds a forecast, the observed relative
    frequency equals the bin's entry of [bin_centers],
    [BrierScoreReliability] returns 0. *)
Theorem reliability_zero_when_calibrated name precision (edges : list Q)
        (y_true_proba y_proba positives : np.ndarray)
        (pos_obs_freq fore_freq : list Z) (pos_obs_rel_freq : np.ndarray) :
  np.monotone edges = true ->
  y_proba <> [] ->
  np.mask_index y_proba (np.equal y_true_proba (Fin 1)) = Ok positives ->
  np.histogram positives edges = Ok pos_obs_freq ->
  np.histogram y_proba edges = Ok fore_freq ->
  np.true_divide (np.astype_float pos_obs_freq) (np.astype_float fore_freq)
  = Ok pos_obs_rel_freq ->
  Forall matches_center
         (combine
            (combine
               (bin_centers
                  (BrierScoreReliability.__init__ name precision edges))
               pos_obs_rel_freq)
            fore_freq) ->
  exists q,
    BrierScoreReliability.__call__
      (BrierScoreReliability.__init__ name precision edges)
      y_true_proba y_proba = Ok (Fin q)
    /\ q == 0.
Proof.
  intros Hm Hne Hmask Hpos Hfore Hrel Hall.
  unfold np.histogram in Hpos, Hfore. rewrite Hm in Hpos, Hfore.
  injection Hpos as <-. injection Hfore as <-.
  rewrite rel_freq_ok in Hrel. injection Hrel as <-.
  cbn [BrierScoreReliability.__init__ bin_centers] in Hall.
  destruct (reliability_value name precision _ _ _ _ Hm Hne Hmask)
    as [q [Hq Eq]].
  exists q. split; [exact Hq|].
  rewrite Eq, (qsum_all_zero _ (calibrated_terms_vanish _ _ _ Hall)). ring.
Qed.

Lemma reliability_zero_when_calibrated_witness :
  exists q,
    BrierScoreReliability.__call__
      (BrierScoreReliability.__init__ "brier_score"%string 3%Z [0; 10])
      (map Fin [0; 1]) (map Fin [3 # 10; 7 # 10]) = Ok (Fin q)
    /\ q == 0.
Proof.
  eapply (reliability_zero_when_calibrated
            "brier_score"%string 3%Z [0; 10]
            (map Fin [0; 1]) (map Fin [3 # 10; 7 # 10])).
  - reflexivity.
  - discriminate.
  - reflexivity.
  - reflexivity.
  - reflexivity.
  - reflexivity.
  - vm_compute. constructor; [|constructor].
    intros _. eexists. split; reflexivity.
Defined.

Lemma resolution_sum_nonneg (climo : Q) (pos fore : list Z) :
  Forall2 (fun p f => (0 <= p <= f)%Z) pos fore ->
  0 <= qsum (map (resolution_formula climo)
                 (filter occupied (combine pos fore))).
Proof.
  induction 1 as [|p f pos fore Hpf _ IH].
  - unfold Qle; cbn; lia.
  - cbn [combine filter].
    change (occupied (p, f)) with (negb (f =? 0)%Z).
    destruct (f =? 0)%Z; cbn [negb map]; [assumption|].
    rewrite qsum_cons. cbn [resolution_formula].
    pose proof (inject_Z_nonneg f ltac:(lia)) as Hf.
    remember (inject_Z p / inject_Z f - climo) as x eqn:Ex. clear Ex.
    assert (Hsq : x ^ 2 == x * x) by ring. rewrite Hsq.
    assert (H0 : 0 <= x * x) by nra.
    remember (x * x) as d eqn:Ed. clear Ed. nra.
Qed.

(** X5.  On aligned arrays whose climatology (the mean outcome) lies strictly
    between 0 and 1, and with non-decreasing edges, [BrierScoreResolution]
    returns a finite score that is not below its declared [minimum] 0. *)
Theorem resolution_nonnegative name precision (edges : list Q)
        (y_true_proba y_proba : np.ndarray) (climo : Q) :
  np.monotone edges = true ->
  length y_true_proba = length y_proba ->
  np.mean y_true_proba = Fin climo ->
  0 < climo < 1 ->
  exists q,
    BrierScoreResolution.__call__
      (BrierScoreResolution.__init__ name precision edges)
      y_true_proba y_proba = Ok (Fin q)
    /\ BrierScoreResolution.minimum <= q.
Proof.
  intros Hm Hlen Hclimo [Hc0 Hc1].
  assert (Hne : y_proba <> []).
  { intros ->. destruct y_true_proba; [discriminate Hclimo | discriminate]. }
  pose proof (mask_index_aligned _ _ Hlen) as Hmask.
  destruct (resolution_value name precision _ _ _ _ climo Hm Hne Hmask Hclimo)
    as [s [Hs Es]].
  rewrite Hs.
  assert (Hpos : 0 < climo * (1 + - climo))
    by (apply Qmult_lt_0_compat; lra).
  assert (Hu : (climo * (1 + - climo) ?= 0) = Gt) by (now apply Qgt_alt).
  cbn [ndiv]. rewrite Hu. eexists. split; [reflexivity|].
  pose proof (resolution_sum_nonneg climo _ _
                (counts_masked _ _ _ edges Hmask)) as HS.
  pose proof (qlen_pos y_proba Hne) as Hn.
  unfold BrierScoreResolution.minimum.
  apply Qle_shift_div_l; [assumption|]. rewrite Es.
  remember (qsum _) as S eqn:ES. clear ES.
  assert (E : 1 / qlen y_proba * S == S / qlen y_proba) by (field; lra).
  rewrite E. apply Qle_shift_div_l; lra.
Qed.

Lemma resolution_nonnegative_witness :
  exists q,
    BrierScoreResolution.__call__
      (BrierScoreResolution.__init__ "brier_score"%string 3%Z default_bins)
      (map Fin [0; 1]) (map Fin [2 # 10; 9 # 10]) = Ok (Fin q)
    /\ BrierScoreResolution.minimum <= q.
Proof.
  eapply (resolution_nonnegative "brier_score"%string 3%Z default_bins
            (map Fin [0; 1]) (map Fin [2 # 10; 9 # 10])).
  - reflexivity.
  - reflexivity.
  - reflexivity.
  - split; reflexivity.
Defined.

(** ** Resolution on constant outcomes *)

Lemma equal_constant (ys : list Q) (b : bool) :
  Forall (fun y => Qeq_bool y 1 = b) ys ->
  np.equal (map Fin ys) (Fin 1) = map (fun _ => b) ys.
Proof.
  induction 1 as [|y ys Hy _ IH]; [reflexivity|].
  unfold np.equal in *. cbn [map neqb]. now rewrite Hy, IH.
Qed.

Lemma mask_all_true {A B : Type} (a : list A) (ys : list B) :
  length ys = length a ->
  map fst (filter snd (combine a (map (fun _ => true) ys))) = a.
Proof.
  revert ys. induction a as [|x a IH]; intros [|y ys] H;
    try reflexivity; try discriminate.
  cbn. now rewrite IH by (cbn in H; lia).
Qed.

Lemma mask_all_false {A B : Type} (a : list A) (ys : list B) :
  map fst (filter snd (combine a (map (fun _ => false) ys))) = [].
Proof.
  revert ys. induction a as [|x a IH]; intros [|y ys]; try reflexivity.
  cbn. apply IH.
Qed.

Lemma counts_nil_zero (a : np.ndarray) (edges : list Q) (c : Q) :
  c == 0 ->
  Forall2 (fun p f => inject_Z p == c * inject_Z f)
          (np.counts [] edges) (np.counts a edges).
Proof.
  intros Hc. induction edges as [|lo [|hi rest] IH]; try constructor.
  - cbn. rewrite Hc. ring.
  - exact IH.
Qed.

Lemma counts_same_one (a : np.ndarray) (edges : list Q) (c : Q) :
  c == 1 ->
  Forall2 (fun p f => inject_Z p == c * inject_Z f)
          (np.counts a edges) (np.counts a edges).
Proof.
  intros Hc. induction (np.counts a edges) as [|f l IH]; constructor.
  - rewrite Hc. ring.
  - exact IH.
Qed.

Lemma proportional_terms_vanish (climo : Q) (pos fore : list Z) :
  Forall2 (fun p f => inject_Z p == climo * inject_Z f) pos fore ->
  Forall (fun t => t == 0)
         (map (resolution_formula climo)
              (filter occupied (combine pos fore))).
Proof.
  induction 1 as [|p f pos fore Hpf _ IH]; [constructor|].
  cbn [combine filter].
  change (occupied (p, f)) with (negb (f =? 0)%Z).
  destruct (f =? 0)%Z eqn:E; cbn [negb map]; [assumption|].
  constructor; [|assumption]. apply Z.eqb_neq in E.
  cbn [resolution_formula]. rewrite Hpf.
  assert (Hf : ~ inject_Z f == 0).
  { intros H. apply Qeq_alt in H. now apply (of_int_nonzero f E). }
  field. exact Hf.
Qed.

(** X6.  When the outcomes are all 0 or all 1 (and there is at least one),
    the uncertainty [climo * (1 - climo)] is zero and so is the sum over the
    bins: [BrierScoreResolution] divides zero by zero and returns
    not-a-number, raising nothing. *)
Theorem resolution_nan_on_constant_outcomes name precision (edges : list Q)
        (ys : list Q) (y_proba : np.ndarray) :
  np.monotone edges = true ->
  length ys = length y_proba ->
  ys <> [] ->
  Forall (fun y => y == 0) ys \/ Forall (fun y => y == 1) ys ->
  BrierScoreResolution.__call__
    (BrierScoreResolution.__init__ name precision edges)
    (map Fin ys) y_proba = Ok NaN.
Proof.
  intros Hm Hlen Hys Hconst.
  assert (Hne : y_proba <> []).
  { intros ->. destruct ys; [congruence | discriminate]. }
  assert (Hlen' : length (map Fin ys) = length y_proba)
    by (now rewrite length_map).
  pose proof (mask_index_aligned _ _ Hlen') as Hmask.
  pose proof (mean_map_Fin ys Hys) as Hmean.
  pose proof (qlen_pos ys Hys) as Hn.
  destruct (resolution_value name precision _ _ _ _ _ Hm Hne Hmask Hmean)
    as [s [Hs Es]].
  rewrite Hs. clear Hs.
  set (climo := qsum ys / qlen ys) in *.
  assert (Hfacts :
            climo * (1 + - climo) == 0
            /\ Forall2 (fun p f => inject_Z p == climo * inject_Z f)
                       (np.counts
                          (map fst (filter snd
                             (combine y_proba
                                      (np.equal (map Fin ys) (Fin 1)))))
                          edges)
                       (np.counts y_proba edges)).
  { destruct Hconst as [H0 | H1].
    - assert (Hc : climo == 0).
      { unfold climo. rewrite (qsum_constant 0 ys H0). field. lra. }
      split; [rewrite Hc; ring|].
      rewrite (equal_constant ys false).
      + rewrite mask_all_false. now apply counts_nil_zero.
      + eapply Forall_impl; [|exact H0]. cbn. intros y Hy.
        destruct (Qeq_bool y 1) eqn:E; [|reflexivity].
        apply Qeq_bool_iff in E. lra.
    - assert (Hc : climo == 1).
      { unfold climo. rewrite (qsum_constant 1 ys H1). field. lra. }
      split; [rewrite Hc; ring|].
      rewrite (equal_constant ys true).
      + rewrite mask_all_true by assumption. now apply counts_same_one.
      + eapply Forall_impl; [|exact H1]. cbn. intros y Hy.
        now apply Qeq_bool_iff. }
  destruct Hfacts as [Hu Hprop].
  rewrite (qsum_all_zero _ (proportional_terms_vanish _ _ _ Hprop)) in Es.
  assert (Hs0 : s == 0) by (rewrite Es; ring).
  apply Qeq_alt in Hu, Hs0. cbn [ndiv]. now rewrite Hu, Hs0.
Qed.

Lemma resolution_nan_on_constant_outcomes_witness :
  BrierScoreResolution.__call__
    (BrierScoreResolution.__init__ "brier_score"%string 3%Z default_bins)
    (map Fin [1; 1]) (map Fin [2 # 10; 9 # 10]) = Ok NaN.
Proof.
  apply (resolution_nan_on_constant_outcomes
           "brier_score"%string 3%Z default_bins [1; 1]
           (map Fin [2 # 10; 9 # 10])).
  - reflexivity.
  - reflexivity.
  - discriminate.
  - right. repeat constructor.
Defined.

(** ** The Brier skill score on finite input *)

Definition sq_devs (m : Q) (ys : list Q) : list Q :=
  map (fun d => d * d) (map (fun y => m + - y) ys).

Lemma bs_c_value (ys : list Q) :
  ys <> [] ->
  BrierSkillScore.bs_c (map Fin ys)
  = Fin (qsum (sq_devs (qsum ys / qlen ys) ys) / qlen ys).
Proof. exact (bs_c_finite ys). Qed.

Lemma skill_call_finite (ys ps : list Q) :
  length ys = length ps -> ps <> [] ->
  BrierSkillScore.__call__ (map Fin ys) (map Fin ps)
  = Ok (nsub (Fin 1)
             (ndiv (Fin (qsum (sq_diffs ps ys) / qlen ps))
                   (BrierSkillScore.bs_c (map Fin ys)))).
Proof.
  intros Hlen Hne. unfold BrierSkillScore.__call__, np.subtract.
  rewrite broadcast_aligned by (now rewrite !length_map).
  cbn [bind]. rewrite (zip_with_map_Fin Qminus) by reflexivity.
  rewrite square_map_Fin. fold (sq_diffs ps ys).
  rewrite mean_map_Fin.
  - unfold qlen at 1. rewrite sq_diffs_length by assumption. reflexivity.
  - intros E. apply (f_equal (@length Q)) in E.
    rewrite sq_diffs_length in E by assumption.
    destruct ps; [congruence | discriminate].
Qed.

Lemma sq_diffs_nonneg (ps ys : list Q) :
  Forall (fun t => 0 <= t) (sq_diffs ps ys).
Proof.
  unfold sq_diffs. apply Forall_map, Forall_forall. intros d _. nra.
Qed.

(** X7.  On aligned finite arrays whose outcomes have a positive reference
    variance [v], [BrierSkillScore] returns 1 minus the Brier score over
    [v]; this never exceeds the declared [maximum] 1, and it is 1 when every
    prediction equals its outcome. *)
Theorem skill_score_at_most_one (ys ps : list Q) (v : Q) :
  length ys = length ps ->
  ps <> [] ->
  BrierSkillScore.bs_c (map Fin ys) = Fin v ->
  0 < v ->
  exists q,
    BrierSkillScore.__call__ (map Fin ys) (map Fin ps) = Ok (Fin q)
    /\ q == 1 - brier_formula ys ps / v
    /\ q <= BrierSkillScore.maximum
    /\ (Forall2 Qeq ps ys -> q == 1).
Proof.
  intros Hlen Hne Hv Hpos.
  rewrite (skill_call_finite ys ps Hlen Hne), Hv.
  assert (Hc : (v ?= 0) = Gt) by (now apply Qgt_alt).
  cbn [ndiv nsub nneg nadd]. rewrite Hc.
  eexists. split; [reflexivity|].
  pose proof (qlen_pos ps Hne) as Hn.
  pose proof (qsum_nonneg _ (sq_diffs_nonneg ps ys)) as HS.
  assert (HB : 0 <= qsum (sq_diffs ps ys) / qlen ps)
    by (apply Qle_shift_div_l; lra).
  assert (HBv : 0 <= qsum (sq_diffs ps ys) / qlen ps / v)
    by (apply Qle_shift_div_l; lra).
  split; [|split].
  - unfold brier_formula. rewrite <- qsum_sq_diffs. ring.
  - unfold BrierSkillScore.maximum. lra.
  - intros Heq.
    assert (H0 : qsum (sq_diffs ps ys) / qlen ps / v == 0).
    { apply (qdiv_zero_iff _ v); [assumption|].
      apply (qdiv_zero_iff _ (qlen ps)); [assumption|].
      apply qsum_zero_iff; [apply sq_diffs_nonneg|].
      now apply sq_diffs_zero_iff. }
    rewrite H0. ring.
Qed.

Lemma skill_score_at_most_one_witness :
  exists q,
    BrierSkillScore.__call__ (map Fin [0; 1]) (map Fin [1 # 4; 1])
    = Ok (Fin q)
    /\ q == 1 - brier_formula [0; 1] [1 # 4; 1] / (1 # 4)
    /\ q <= BrierSkillScore.maximum.
Proof.
  destruct (skill_score_at_most_one [0; 1] [1 # 4; 1] _
              eq_refl ltac:(discriminate) eq_refl eq_refl)
    as [q [Hq [E [Hle _]]]].
  exists q. split; [exact Hq|]. split; [|assumption].
  rewrite E. reflexivity.
Defined.

Lemma climatology_forecast_errors (m : Q) (ys ps : list Q) :
  length ys = length ps ->
  Forall (fun p => p == m) ps ->
  qsum (sq_diffs ps ys) == qsum (sq_devs m ys).
Proof.
  revert ps. induction ys as [|y ys IH]; intros [|p ps] Hlen Hp;
    try discriminate; [reflexivity|].
  inversion Hp as [|? ? Hp0 Hps]; subst.
  unfold sq_diffs, sq_devs in *. cbn [np.zip_with map].
  rewrite !qsum_cons, (IH ps) by (assumption || (cbn in Hlen; lia)).
  rewrite Hp0. ring.
Qed.

(** X8.  A forecast that gives every instance the climatology (the mean
    outcome) has no skill: when the reference variance is positive,
    [BrierSkillScore] returns 0 on it. *)
Theorem skill_score_zero_on_climatology (ys ps : list Q) (climo v : Q) :
  length ys = length ps ->
  ps <> [] ->
  np.mean (map Fin ys) = Fin climo ->
  Forall (fun p => p == climo) ps ->
  BrierSkillScore.bs_c (map Fin ys) = Fin v ->
  0 < v ->
  exists q,
    BrierSkillScore.__call__ (map Fin ys) (map Fin ps) = Ok (Fin q)
    /\ q == 0.
Proof.
  intros Hlen Hne Hmean Hp Hv Hpos.
  assert (Hys : ys <> []) by (destruct ys, ps; cbn in *; congruence).
  rewrite (skill_call_finite ys ps Hlen Hne), Hv.
  assert (Hc : (v ?= 0) = Gt) by (now apply Qgt_alt).
  cbn [ndiv nsub nneg nadd]. rewrite Hc.
  eexists. split; [reflexivity|].
  rewrite mean_map_Fin in Hmean by assumption. injection Hmean as Hm.
  rewrite bs_c_value in Hv by assumption. injection Hv as Hv'.
  rewrite (climatology_forecast_errors climo ys ps Hlen Hp).
  assert (En : qlen ps = qlen ys) by (unfold qlen; now rewrite Hlen).
  rewrite En. subst climo. subst v.
  remember (qsum (sq_devs (qsum ys / qlen ys) ys) / qlen ys) as V eqn:EV.
  clear EV. field. lra.
Qed.

Lemma skill_score_zero_on_climatology_witness :
  exists q,
    BrierSkillScore.__call__ (map Fin [0; 1]) (map Fin [1 # 2; 1 # 2])
    = Ok (Fin q)
    /\ q == 0.
Proof.
  eapply (skill_score_zero_on_climatology [0; 1] [1 # 2; 1 # 2]).
  - reflexivity.
  - discriminate.
  - reflexivity.
  - repeat constructor.
  - reflexivity.
  - reflexivity.
Defined.

(** ** Binary outcomes *)

Lemma sq_devs_binary (m : Q) (ys : list Q) :
  Forall (fun y => y == 0 \/ y == 1) ys ->
  qsum (sq_devs m ys) == qlen ys * (m * m) - 2 * m * qsum ys + qsum ys.
Proof.
  induction 1 as [|y ys Hy _ IH].
  - unfold qlen. cbn. ring.
  - unfold sq_devs in *. cbn [map]. rewrite !qsum_cons, qlen_cons, IH.
    destruct Hy as [E | E]; rewrite E; ring.
Qed.

(** X9.  For outcomes in {0, 1} (at least one), the reference variance
    [bs_c] of [BrierSkillScore] equals the uncertainty
    [climo * (1 - climo)] by which [BrierScoreResolution] divides. *)
Theorem reference_variance_is_uncertainty (ys : list Q) :
  ys <> [] ->
  Forall (fun y => y == 0 \/ y == 1) ys ->
  exists climo unc v,
    np.mean (map Fin ys) = Fin climo
    /\ nmul (Fin climo) (nsub (Fin 1) (Fin climo)) = Fin unc
    /\ BrierSkillScore.bs_c (map Fin ys) = Fin v
    /\ v == unc.
Proof.
  intros Hne Hbin. eexists. eexists. eexists.
  split; [now apply mean_map_Fin|]. split; [reflexivity|].
  split; [now apply bs_c_value|].
  rewrite (sq_devs_binary _ ys Hbin).
  pose proof (qlen_pos ys Hne). field. lra.
Qed.

Lemma reference_variance_is_uncertainty_witness :
  exists climo unc v,
    np.mean (map Fin [0; 1; 1]) = Fin climo
    /\ nmul (Fin climo) (nsub (Fin 1) (Fin climo)) = Fin unc
    /\ BrierSkillScore.bs_c (map Fin [0; 1; 1]) = Fin v
    /\ v == unc.
Proof.
  apply (reference_variance_is_uncertainty [0; 1; 1]).
  - discriminate.
  - constructor; [left; reflexivity|].
    constructor; [right; reflexivity|].
    constructor; [right; reflexivity | constructor].
Defined.

Lemma complete_miss_errors (ys ps : list Q) :
  Forall (fun y => y == 0 \/ y == 1) ys ->
  Forall2 (fun p y => p == 1 - y) ps ys ->
  qsum (sq_diffs ps ys) == qlen ps.
Proof.
  intros Hbin Hmiss. induction Hmiss as [|p y ps ys Hp _ IH].
  - reflexivity.
  - inversion Hbin as [|? ? Hy Hys]; subst.
    unfold sq_diffs in *. cbn [np.zip_with map].
    rewrite qsum_cons, qlen_cons, (IH Hys), Hp.
    destruct Hy as [E | E]; rewrite E; ring.
Qed.

(** X10.  The declared [minimum] -1 of [BrierSkillScore] is not a bound of
    what it returns: on outcomes in {0, 1} that are not all the same, a
    forecast that gives every instance the opposite of its outcome scores at
    most -3. *)
Theorem skill_score_below_declared_minimum (ys ps : list Q) (climo : Q) :
  Forall (fun y => y == 0 \/ y == 1) ys ->
  Forall2 (fun p y => p == 1 - y) ps ys ->
  np.mean (map Fin ys) = Fin climo ->
  0 < climo < 1 ->
  exists q,
    BrierSkillScore.__call__ (map Fin ys) (map Fin ps) = Ok (Fin q)
    /\ q <= -3
    /\ q < BrierSkillScore.minimum.
Proof.
  intros Hbin Hmiss Hmean [Hc0 Hc1].
  assert (Hys : ys <> []) by (intros ->; discriminate Hmean).
  assert (Hlen : length ys = length ps)
    by (symmetry; eapply Forall2_length; eassumption).
  assert (Hne : ps <> []) by (destruct ys, ps; cbn in *; congruence).
  pose proof (qlen_pos ys Hys) as Hn.
  rewrite mean_map_Fin in Hmean by assumption. injection Hmean as Hm.
  assert (Hv : qsum (sq_devs (qsum ys / qlen ys) ys) / qlen ys
               == climo * (1 - climo)).
  { rewrite (sq_devs_binary _ ys Hbin). subst climo. field. lra. }
  assert (Hpos : 0 < climo * (1 - climo))
    by (apply Qmult_lt_0_compat; lra).
  assert (Hquarter : 4 * (climo * (1 - climo)) <= 1).
  { assert (H := Qle_refl 0). 
    assert (Hsq : 0 <= (2 * climo - 1) * (2 * climo - 1)).
    { remember (2 * climo - 1) as x eqn:Ex. clear Ex. nra. }
    lra. }
  rewrite (skill_call_finite ys ps Hlen Hne), bs_c_value by assumption.
  remember (qsum (sq_devs (qsum ys / qlen ys) ys) / qlen ys) as V eqn:EV.
  clear EV. rewrite <- Hv in Hpos, Hquarter.
  assert (Hc : (V ?= 0) = Gt) by (now apply Qgt_alt).
  cbn [ndiv nsub nneg nadd]. rewrite Hc.
  eexists. split; [reflexivity|].
  rewrite (complete_miss_errors ys ps Hbin Hmiss).
  assert (E1 : qlen ps / qlen ps == 1).
  { pose proof (qlen_pos ps Hne). field. lra. }
  rewrite E1.
  assert (H4 : 4 <= 1 / V) by (apply Qle_shift_div_l; lra).
  unfold BrierSkillScore.minimum. split; lra.
Qed.

Lemma skill_score_below_declared_minimum_witness :
  exists q,
    BrierSkillScore.__call__ (map Fin [0; 1]) (map Fin [1; 0]) = Ok (Fin q)
    /\ q <= -3
    /\ q < BrierSkillScore.minimum.
Proof.
  eapply (skill_score_below_declared_minimum [0; 1] [1; 0]).
  - constructor; [left; reflexivity|].
    constructor; [right; reflexivity | constructor].
  - repeat constructor.
  - reflexivity.
  - split; reflexivity.
Defined.

(** ** Direct calls on arrays that are not aligned *)

Lemma broadcast_mismatch {A B C : Type} (f : A -> B -> C) a b :
  length a <> length b -> length a <> 1%nat -> length b <> 1%nat ->
  np.broadcast f a b = Raise ValueError_broadcast.
Proof.
  intros Hab Ha Hb. unfold np.broadcast.
  apply Nat.eqb_neq in Hab. rewrite Hab.
  destruct a as [|x [|x' a]], b as [|y [|y' b]]; cbn in *;
    congruence.
Qed.

Lemma ndiv_nan_r (x : num) : ndiv x NaN = NaN.
Proof. now destruct x. Qed.

(** X11.  The direct entry points do not check that their two arrays have
    the same length.  When the lengths differ and the outcome array is not
    empty, the two binned scorers raise [IndexError] (from the boolean
    mask); [BrierScore] and [BrierSkillScore] raise the broadcasting
    [ValueError] unless one of the arrays has length one; an outcome array of
    length one is silently stretched by [BrierScore] over all the
    predictions.  An empty outcome array against forecasts raises nothing in
    the binned scorers (non-decreasing edges): the empty mask selects no
    positive, [BrierScoreReliability] returns a finite score and
    [BrierScoreResolution] not-a-number. *)
Theorem direct_calls_on_misaligned_arrays :
  (forall self y_true_proba y_proba,
      y_true_proba <> [] ->
      length y_true_proba <> length y_proba ->
      BrierScoreReliability.__call__ self y_true_proba y_proba
      = Raise IndexError
      /\ BrierScoreResolution.__call__ self y_true_proba y_proba
         = Raise IndexError)
  /\ (forall y_true_proba y_proba,
         length y_true_proba <> length y_proba ->
         length y_true_proba <> 1%nat ->
         length y_proba <> 1%nat ->
         BrierScore.__call__ y_true_proba y_proba
         = Raise ValueError_broadcast
         /\ BrierSkillScore.__call__ y_true_proba y_proba
            = Raise ValueError_broadcast)
  /\ (forall y y_proba,
         BrierScore.__call__ [y] y_proba
         = Ok (np.mean (np.square (map (fun p => nsub p y) y_proba))))
  /\ (forall name precision edges y_proba,
         np.monotone edges = true ->
         y_proba <> [] ->
         (exists q,
             BrierScoreReliability.__call__
               (BrierScoreReliability.__init__ name precision edges)
               [] y_proba = Ok (Fin q))
         /\ BrierScoreResolution.__call__
              (BrierScoreResolution.__init__ name precision edges)
              [] y_proba = Ok NaN).
Proof.
  split; [|split; [|split]].
  - intros self yt yp Hne Hlen.
    unfold BrierScoreReliability.__call__, BrierScoreResolution.__call__,
      np.mask_index, np.equal.
    destruct yt as [|y yt]; [congruence|]. cbn [map].
    change (length (neqb y (Fin 1) :: map (fun x => neqb x (Fin 1)) yt))
      with (S (length (map (fun x => neqb x (Fin 1)) yt))).
    rewrite length_map.
    assert (E : (length yp =? S (length yt))%nat = false)
      by (apply Nat.eqb_neq; cbn [length] in Hlen; congruence).
    rewrite E. split; reflexivity.
  - intros yt yp Hlen Ht Hp.
    unfold BrierScore.__call__, BrierSkillScore.__call__, np.subtract.
    rewrite broadcast_mismatch by congruence. split; reflexivity.
  - intros y yp. unfold BrierScore.__call__, np.subtract, np.broadcast.
    destruct yp as [|p [|p' yp]]; reflexivity.
  - intros name precision edges yp Hm Hne.
    assert (Hmask : np.mask_index yp (np.equal [] (Fin 1)) = Ok [])
      by reflexivity.
    split.
    + destruct (reliability_value name precision _ _ _ _ Hm Hne Hmask)
        as [q [Hq _]].
      now exists q.
    + rewrite (resolution_call _ _ _ _ _ _ Hm Hne Hmask).
      rewrite mean_nil. cbn [nmul]. now rewrite ndiv_nan_r.
Qed.

Lemma direct_calls_on_misaligned_arrays_witness :
  (BrierScoreReliability.__call__ BrierScoreReliability.default
     (map Fin [0; 1; 1]) (map Fin [1 # 10; 9 # 10]) = Raise IndexError
   /\ BrierScoreResolution.__call__ BrierScoreReliability.default
        (map Fin [0; 1; 1]) (map Fin [1 # 10; 9 # 10]) = Raise IndexError)
  /\ (BrierScore.__call__ (map Fin [0; 1; 1]) (map Fin [1 # 10; 9 # 10])
      = Raise ValueError_broadcast
      /\ BrierSkillScore.__call__ (map Fin [0; 1; 1])
                                  (map Fin [1 # 10; 9 # 10])
         = Raise ValueError_broadcast)
  /\ BrierScoreResolution.__call__
       (BrierScoreResolution.__init__ "brier_score"%string 3%Z default_bins)
       [] (map Fin [25 # 100; 75 # 100]) = Ok NaN.
Proof.
  destruct direct_calls_on_misaligned_arrays as [Hbin [Hplain [_ Hempty]]].
  split; [|split].
  - apply Hbin; [discriminate | cbn; lia].
  - apply Hplain; cbn; lia.
  - apply (Hempty "brier_score"%string 3%Z default_bins
                  (map Fin [25 # 100; 75 # 100]));
      [reflexivity | discriminate].
Defined.

(** X12.  The constructors accept edges that decrease somewhere, but then
    every call on aligned arrays raises the [ValueError] of [np.histogram],
    in both binned scorers. *)
Theorem decreasing_edges_raise name precision (edges : list Q)
        (y_true_proba y_proba : np.ndarray) :
  np.monotone edges = false ->
  length y_true_proba = length y_proba ->
  BrierScoreReliability.__call__
    (BrierScoreReliability.__init__ name precision edges)
    y_true_proba y_proba = Raise ValueError_bins
  /\ BrierScoreResolution.__call__
       (BrierScoreResolution.__init__ name precision edges)
       y_true_proba y_proba = Raise ValueError_bins.
Proof.
  intros Hm Hlen.
  unfold BrierScoreReliability.__call__, BrierScoreResolution.__call__.
  rewrite (mask_index_aligned _ _ Hlen). cbn [bind].
  unfold np.histogram. cbn [BrierScoreReliability.__init__
                            BrierScoreResolution.__init__ bins].
  rewrite Hm. split; reflexivity.
Qed.

Lemma decreasing_edges_raise_witness :
  BrierScoreReliability.__call__
    (BrierScoreReliability.__init__ "brier_score"%string 3%Z [1; 0])
    (map Fin [0; 1]) (map Fin [1 # 10; 9 # 10]) = Raise ValueError_bins
  /\ BrierScoreResolution.__call__
       (BrierScoreResolution.__init__ "brier_score"%string 3%Z [1; 0])
       (map Fin [0; 1]) (map Fin [1 # 10; 9 # 10]) = Raise ValueError_bins.
Proof.
  apply (decreasing_edges_raise "brier_score"%string 3%Z [1; 0]
           (map Fin [0; 1]) (map Fin [1 # 10; 9 # 10])); reflexivity.
Defined.

(** ** Selecting instances by position *)

(** The position a [valid_indexes] entry denotes in an array of [n]
    elements: negative entries count from the end. *)
Definition position (n : nat) (i : Z) : nat :=
  Z.to_nat (if (i <? 0)%Z then (i + Z.of_nat n)%Z else i).

Definition in_range (n : nat) (i : Z) : Prop :=
  (- Z.of_nat n <= i < Z.of_nat n)%Z.

Lemma item_in_range {A : Type} (a : list A) (i : Z) (d : A) :
  in_range (length a) i -> np.item a i = Ok (nth (position (length a) i) a d).
Proof.
  unfold in_range, np.item, position. intros Hi.
  destruct (i <? 0)%Z eqn:E;
    [apply Z.ltb_lt in E | apply Z.ltb_ge in E].
  - assert (E' : (i + Z.of_nat (length a) <? 0)%Z = false)
      by (apply Z.ltb_ge; lia).
    rewrite E'.
    destruct (nth_error a (Z.to_nat (i + Z.of_nat (length a)))) eqn:En.
    + now rewrite (nth_error_nth _ _ d En).
    + apply nth_error_None in En. lia.
  - assert (E' : (i <? 0)%Z = false) by (apply Z.ltb_ge; lia).
    rewrite E'.
    destruct (nth_error a (Z.to_nat i)) eqn:En.
    + now rewrite (nth_error_nth _ _ d En).
    + apply nth_error_None in En. lia.
Qed.

Lemma item_out_of_range {A : Type} (a : list A) (i : Z) :
  ~ in_range (length a) i -> np.item a i = Raise IndexError.
Proof.
  unfold in_range, np.item. intros Hi.
  destruct (i <? 0)%Z eqn:E;
    [apply Z.ltb_lt in E | apply Z.ltb_ge in E].
  - assert (E' : (i + Z.of_nat (length a) <? 0)%Z = true)
      by (apply Z.ltb_lt; lia).
    now rewrite E'.
  - assert (E' : (i <? 0)%Z = false) by (apply Z.ltb_ge; lia).
    rewrite E'.
    destruct (nth_error a (Z.to_nat i)) eqn:En; [|reflexivity].
    assert (Hlt : (Z.to_nat i < length a)%nat)
      by (apply nth_error_Some; congruence).
    lia.
Qed.

Lemma take_in_range {A : Type} (a : list A) (l : list Z) (d : A) :
  Forall (in_range (length a)) l ->
  np.take a l = Ok (map (fun i => nth (position (length a) i) a d) l).
Proof.
  induction 1 as [|i l Hi _ IH]; [reflexivity|].
  cbn [np.take map]. rewrite (item_in_range a i d Hi). cbn [bind].
  now rewrite IH.
Qed.

Lemma item_raises_index_error {A : Type} (a : list A) (i : Z) (e : exn) :
  np.item a i = Raise e -> e = IndexError.
Proof.
  unfold np.item.
  destruct ((if (i <? 0)%Z then (i + Z.of_nat (length a))%Z else i) <? 0)%Z;
    [congruence|].
  destruct (nth_error a _); congruence.
Qed.

Lemma take_raises_index_error {A : Type} (a : list A) (l : list Z) :
  (exists r, np.take a l = Ok r) \/ np.take a l = Raise IndexError.
Proof.
  induction l as [|i l IH]; [left; now eexists|].
  cbn [np.take]. destruct (np.item a i) eqn:E; cbn [bind].
  - destruct IH as [[r Hr] | Hr]; rewrite Hr;
      [left; now eexists | now right].
  - right. apply item_raises_index_error in E. now subst.
Qed.

Lemma take_out_of_range {A : Type} (a : list A) (l : list Z) :
  Exists (fun i => ~ in_range (length a) i) l ->
  np.take a l = Raise IndexError.
Proof.
  induction 1 as [i l Hi | i l _ IH]; cbn [np.take].
  - now rewrite (item_out_of_range a i Hi).
  - destruct (np.item a i) eqn:E; cbn [bind].
    + now rewrite IH.
    + apply item_raises_index_error in E. now subst.
Qed.

Lemma protocol_take call ground_truths predictions (n : nat) (l : list Z) :
  (1 < np.ncols (y_pred predictions))%nat ->
  length (np.rows (y_pred predictions)) = n ->
  length (y_pred_label_index ground_truths) = n ->
  Forall (in_range n) l ->
  protocol call ground_truths predictions (Some (np.Take l))
  = call (map (fun i => nth (position n i)
                            (y_pred_label_index ground_truths) NaN) l)
         (map (fun i => nth 1 (nth (position n i)
                                   (np.rows (y_pred predictions)) []) NaN) l).
Proof.
  intros Hcols Hrows Hlabels Hl. subst n.
  unfold protocol, np.getitem_rows. cbn [np.getitem].
  rewrite (take_in_range _ l []) by assumption. cbn [bind].
  unfold np.column. cbn [np.ncols np.rows].
  apply Nat.ltb_lt in Hcols. rewrite Hcols. cbn [bind]. rewrite map_map.
  rewrite (take_in_range _ l NaN) by (now rewrite Hlabels). cbn [bind].
  unfold BaseScoreType.check_y_pred_dimensions.
  rewrite !length_map, Nat.eqb_refl. cbn [bind]. now rewrite Hlabels.
Qed.

(** X13.  With a list of positions as [valid_indexes], all of them in range
    (negative ones counting from the end), each [score_function] applies its
    formula to exactly the listed instances, in the listed order: their
    label indices and the second column of their prediction rows. *)
Theorem score_function_on_listed_instances
        (ground_truths predictions : Predictions) (n : nat) (l : list Z) :
  (1 < np.ncols (y_pred predictions))%nat ->
  length (np.rows (y_pred predictions)) = n ->
  length (y_pred_label_index ground_truths) = n ->
  Forall (in_range n) l ->
  let y_true_proba :=
    map (fun i => nth (position n i) (y_pred_label_index ground_truths) NaN)
        l in
  let y_proba :=
    map (fun i => nth 1 (nth (position n i) (np.rows (y_pred predictions)) [])
                      NaN) l in
  BrierScore.score_function ground_truths predictions (Some (np.Take l))
  = BrierScore.__call__ y_true_proba y_proba
  /\ BrierSkillScore.score_function ground_truths predictions
                                   (Some (np.Take l))
     = BrierSkillScore.__call__ y_true_proba y_proba
  /\ (forall self,
         BrierScoreReliability.score_function
           self ground_truths predictions (Some (np.Take l))
         = BrierScoreReliability.__call__ self y_true_proba y_proba)
  /\ (forall self,
         BrierScoreResolution.score_function
           self ground_truths predictions (Some (np.Take l))
         = BrierScoreResolution.__call__ self y_true_proba y_proba).
Proof.
  intros Hcols Hrows Hlabels Hl y_true_proba y_proba.
  rewrite brier_score_protocol, brier_skill_score_protocol.
  repeat split; try intros self;
    try rewrite reliability_protocol; try rewrite resolution_protocol;
    now apply protocol_take.
Qed.

Lemma score_function_on_listed_instances_witness :
  BrierScore.score_function truths4 predictions4 (Some (np.Take [-1; 0]%Z))
  = BrierScore.__call__ (map Fin [1; 0]) (map Fin [9 # 10; 1 # 10]).
Proof.
  apply (score_function_on_listed_instances truths4 predictions4 4
                                            [-1; 0]%Z).
  - cbn. lia.
  - reflexivity.
  - reflexivity.
  - repeat constructor; cbn; lia.
Defined.

Lemma protocol_out_of_range call ground_truths predictions (l : list Z) :
  Exists (fun i => ~ in_range (length (np.rows (y_pred predictions))) i) l ->
  protocol call ground_truths predictions (Some (np.Take l))
  = Raise IndexError.
Proof.
  intros Hl. unfold protocol, np.getitem_rows. cbn [np.getitem].
  now rewrite (take_out_of_range _ l Hl).
Qed.

(** X14.  When a listed position lies outside the prediction rows (at or
    beyond their number, or below minus their number), each
    [score_function] raises [IndexError]. *)
Theorem score_function_position_out_of_range
        (ground_truths predictions : Predictions) (l : list Z) :
  Exists (fun i => ~ in_range (length (np.rows (y_pred predictions))) i) l ->
  BrierScore.score_function ground_truths predictions (Some (np.Take l))
  = Raise IndexError
  /\ BrierSkillScore.score_function ground_truths predictions
                                   (Some (np.Take l))
     = Raise IndexError
  /\ (forall self,
         BrierScoreReliability.score_function
           self ground_truths predictions (Some (np.Take l))
         = Raise IndexError)
  /\ (forall self,
         BrierScoreResolution.score_function
           self ground_truths predictions (Some (np.Take l))
         = Raise IndexError).
Proof.
  intros Hl.
  rewrite brier_score_protocol, brier_skill_score_protocol.
  repeat split; try intros self;
    try rewrite reliability_protocol; try rewrite resolution_protocol;
    now apply protocol_out_of_range.
Qed.

Lemma score_function_position_out_of_range_witness :
  BrierScore.score_function truths4 predictions4 (Some (np.Take [0; 4]%Z))
  = Raise IndexError.
Proof.
  apply (score_function_position_out_of_range truths4 predictions4
                                              [0; 4]%Z).
  apply Exists_cons_tl, Exists_cons_hd. unfold in_range. cbn. lia.
Defined.

Lemma protocol_too_few_columns call ground_truths predictions valid_indexes :
  (np.ncols (y_pred predictions) < 2)%nat ->
  protocol call ground_truths predictions valid_indexes = Raise IndexError.
Proof.
  intros Hcols. unfold protocol, np.getitem_rows.
  assert (Hcol : forall r,
             np.column {| np.ncols := np.ncols (y_pred predictions);
                          np.rows := r |} 1 = Raise IndexError).
  { intros r. unfold np.column. cbn [np.ncols].
    assert (E : (1 <? np.ncols (y_pred predictions))%nat = false)
      by (apply Nat.ltb_ge; lia).
    now rewrite E. }
  destruct valid_indexes as [[start stop | l]|]; cbn [np.getitem bind].
  - now rewrite Hcol.
  - destruct (take_raises_index_error (np.rows (y_pred predictions)) l)
      as [[r Hr] | Hr]; rewrite Hr; cbn [bind]; [now rewrite Hcol|reflexivity].
  - now rewrite Hcol.
Qed.

(** X15.  Predictions with fewer than two columns have no second-class
    probability: each [score_function] raises [IndexError] on them, whatever
    [valid_indexes] is. *)
Theorem score_function_needs_second_column
        (ground_truths predictions : Predictions)
        (valid_indexes : option np.index) :
  (np.ncols (y_pred predictions) < 2)%nat ->
  BrierScore.score_function ground_truths predictions valid_indexes
  = Raise IndexError
  /\ BrierSkillScore.score_function ground_truths predictions valid_indexes
     = Raise IndexError
  /\ (forall self,
         BrierScoreReliability.score_function
           self ground_truths predictions valid_indexes
         = Raise IndexError)
  /\ (forall self,
         BrierScoreResolution.score_function
           self ground_truths predictions valid_indexes
         = Raise IndexError).
Proof.
  intros Hcols.
  rewrite brier_score_protocol, brier_skill_score_protocol.
  repeat split; try intros self;
    try rewrite reliability_protocol; try rewrite resolution_protocol;
    now apply protocol_too_few_columns.
Qed.

(** Two instances with a single column of predictions. *)
Definition one_column : Predictions :=
  {| y_pred := {| np.ncols := 1;
                  np.rows := map (map Fin) [[1 # 10]; [9 # 10]] |};
     y_pred_label_index := [] |}.

Lemma score_function_needs_second_column_witness :
  BrierScore.score_function truths4 one_column None = Raise IndexError.
Proof.
  apply (score_function_needs_second_column truths4 one_column None).
  cbn. lia.
Defined.
